(** * GoldenSpaceAI Orders: the webhook pipeline of [index.js]

    A shallow embedding of the two payment webhooks of [index.js]
    (LemonSqueezy and NOWPayments): raw body capture, HMAC signature
    verification, event classification, order extraction and the route
    handlers, followed by the properties the specification states about
    them.

    Platform functions the program calls are modelled after their own
    specifications: [Buffer.prototype.toString("utf8")] and
    [Buffer.from(string)] after the WHATWG Encoding Standard,
    [crypto.createHmac] after RFC 2104 over FIPS 180-4 SHA-256 / SHA-512,
    [crypto.timingSafeEqual] after the Node.js documentation. *)

From Stdlib Require Import String Ascii ZArith List Bool Lia PrimFloat.
Import ListNotations.
Local Open Scope Z_scope.

Set Warnings "-register-all".

(* ------------------------------------------------------------------ *)
(** ** JavaScript strings and byte buffers                             *)
(* ------------------------------------------------------------------ *)

(** A JavaScript string is a sequence of UTF-16 code units, a [Buffer] a
    sequence of octets. *)
Definition jsstring := list Z.
Definition buffer := list Z.

Definition is_byte (b : Z) : Prop := 0 <= b < 256.
Definition is_ascii (u : Z) : Prop := 0 <= u < 128.

(** String literals of the source, all of them ASCII. *)
Definition js (s : string) : jsstring :=
  map (fun a => Z.of_N (N_of_ascii a)) (list_ascii_of_string s).

Fixpoint list_eqb (a b : list Z) : bool :=
  match a, b with
  | [], [] => true
  | x :: a', y :: b' => (x =? y) && list_eqb a' b'
  | _, _ => false
  end.

Definition between (lo x hi : Z) : bool := (lo <=? x) && (x <=? hi).

Module UTF8.

(** *** Decoding: [buf.toString("utf8")] *)

(** The decoder of the Encoding Standard: a lead byte opens a sequence
    and fixes the range of the next byte; a byte outside that range
    ends the sequence with U+FFFD and is looked at again as a lead. *)
Inductive dstate :=
| Lead
| Cont (cp : Z) (needed : nat) (lo hi : Z).

Definition replacement : Z := 0xFFFD.

Fixpoint decode (st : dstate) (bs : buffer) : list Z :=
  match bs with
  | [] => match st with Lead => [] | Cont _ _ _ _ => [replacement] end
  | b :: rest =>
      let lead :=
        if between 0 b 0x7F then b :: decode Lead rest
        else if between 0xC2 b 0xDF then
          decode (Cont (b mod 32) 0 0x80 0xBF) rest
        else if between 0xE0 b 0xEF then
          decode (Cont (b mod 16) 1
                    (if b =? 0xE0 then 0xA0 else 0x80)
                    (if b =? 0xED then 0x9F else 0xBF)) rest
        else if between 0xF0 b 0xF4 then
          decode (Cont (b mod 8) 2
                    (if b =? 0xF0 then 0x90 else 0x80)
                    (if b =? 0xF4 then 0x8F else 0xBF)) rest
        else replacement :: decode Lead rest in
      match st with
      | Lead => lead
      | Cont cp needed lo hi =>
          if between lo b hi then
            match needed with
            | O => (cp * 64 + b mod 64) :: decode Lead rest
            | S n => decode (Cont (cp * 64 + b mod 64) n 0x80 0xBF) rest
            end
          else replacement :: lead
      end
  end.

(** A code point as UTF-16 code units. *)
Definition units (cp : Z) : jsstring :=
  if cp <? 0x10000 then [cp]
  else [0xD800 + (cp - 0x10000) / 1024; 0xDC00 + (cp - 0x10000) mod 1024].

Definition toString (buf : buffer) : jsstring :=
  flat_map units (decode Lead buf).

(** *** Encoding: [Buffer.from(s)], [hmac.update(s, "utf8")] *)

Definition encode_cp (cp : Z) : buffer :=
  if cp <? 0x80 then [cp]
  else if cp <? 0x800 then [0xC0 + cp / 64; 0x80 + cp mod 64]
  else if cp <? 0x10000 then
    [0xE0 + cp / 4096; 0x80 + (cp / 64) mod 64; 0x80 + cp mod 64]
  else
    [0xF0 + cp / 262144; 0x80 + (cp / 4096) mod 64;
     0x80 + (cp / 64) mod 64; 0x80 + cp mod 64].

Definition is_high (u : Z) : bool := between 0xD800 u 0xDBFF.
Definition is_low (u : Z) : bool := between 0xDC00 u 0xDFFF.

(** A surrogate pair is one code point; a lone surrogate is encoded as
    U+FFFD. *)
Fixpoint encode (s : jsstring) : buffer :=
  match s with
  | [] => []
  | u :: t =>
      if is_high u then
        match t with
        | l :: t' =>
            if is_low l then
              encode_cp (0x10000 + (u - 0xD800) * 1024 + (l - 0xDC00))
                ++ encode t'
            else encode_cp replacement ++ encode t
        | [] => encode_cp replacement
        end
      else if is_low u then encode_cp replacement ++ encode t
      else encode_cp u ++ encode t
  end.

(** Unicode scalar values: the code points that are no surrogates. *)
Definition scalar (cp : Z) : Prop :=
  0 <= cp < 0xD800 \/ 0xE000 <= cp < 0x110000.

(** Well-formed UTF-8 byte sequences (Unicode Standard, table 3-7). *)
Inductive wellformed : buffer -> Prop :=
| wf_end : wellformed []
| wf_one b rest :
    0 <= b <= 0x7F -> wellformed rest -> wellformed (b :: rest)
| wf_two b1 b2 rest :
    0xC2 <= b1 <= 0xDF -> 0x80 <= b2 <= 0xBF ->
    wellformed rest -> wellformed (b1 :: b2 :: rest)
| wf_three b1 b2 b3 rest :
    0xE0 <= b1 <= 0xEF ->
    (if b1 =? 0xE0 then 0xA0 else 0x80) <= b2
      <= (if b1 =? 0xED then 0x9F else 0xBF) ->
    0x80 <= b3 <= 0xBF ->
    wellformed rest -> wellformed (b1 :: b2 :: b3 :: rest)
| wf_four b1 b2 b3 b4 rest :
    0xF0 <= b1 <= 0xF4 ->
    (if b1 =? 0xF0 then 0x90 else 0x80) <= b2
      <= (if b1 =? 0xF4 then 0x8F else 0xBF) ->
    0x80 <= b3 <= 0xBF -> 0x80 <= b4 <= 0xBF ->
    wellformed rest -> wellformed (b1 :: b2 :: b3 :: b4 :: rest).

End UTF8.

(* ------------------------------------------------------------------ *)
(** ** SHA-2 and HMAC: [crypto.createHmac(alg, key)]                   *)
(* ------------------------------------------------------------------ *)

Module SHA2.

(** The two functions of FIPS 180-4 the program uses differ in word
    size, number of rounds, constants and rotation amounts only. *)
Record params := {
  wbits : Z;              (* word size in bits *)
  wbytes : nat;           (* word size in bytes *)
  lenbytes : nat;         (* size of the length field of the padding *)
  K : list Z;             (* round constants, one per round *)
  H0 : list Z;            (* initial hash value *)
  bigS0 : Z * Z * Z;      (* rotations of Sigma0 *)
  bigS1 : Z * Z * Z;      (* rotations of Sigma1 *)
  smallS0 : Z * Z * Z;    (* rotations and shift of sigma0 *)
  smallS1 : Z * Z * Z     (* rotations and shift of sigma1 *)
}.

(** The constants are fractional parts of roots of the first primes
    (FIPS 180-4, 4.2.2, 4.2.3, 5.3.3 and 5.3.5): the first [w] bits of
    the fractional part of the [e]-th root of each prime. *)
Definition prime (n : Z) : bool :=
  forallb (fun d => negb (n mod d =? 0))
    (map Z.of_nat (seq 2 (Z.to_nat n - 2))).

Definition primes (count : nat) : list Z :=
  firstn count (filter prime (map Z.of_nat (seq 2 408))).

(** The integer [e]-th root of [n], one bit at a time from the top. *)
Fixpoint iroot (e : Z) (bits : nat) (n r : Z) : Z :=
  match bits with
  | O => r
  | S b =>
      let c := r + 2 ^ Z.of_nat b in
      iroot e b n (if c ^ e <=? n then c else r)
  end.

Definition fractional (w e : Z) (count : nat) : list Z :=
  map (fun q => iroot e (Z.to_nat w + 4) (q * 2 ^ (e * w)) 0 mod 2 ^ w)
    (primes count).

Definition K256 : list Z := Eval vm_compute in fractional 32 3 64.
Definition H256 : list Z := Eval vm_compute in fractional 32 2 8.
Definition K512 : list Z := Eval vm_compute in fractional 64 3 80.
Definition H512 : list Z := Eval vm_compute in fractional 64 2 8.

Definition sha256_params : params := {|
  wbits := 32; wbytes := 4; lenbytes := 8;
  K := K256;
  H0 := H256;
  bigS0 := (2, 13, 22); bigS1 := (6, 11, 25);
  smallS0 := (7, 18, 3); smallS1 := (17, 19, 10) |}.

Definition sha512_params : params := {|
  wbits := 64; wbytes := 8; lenbytes := 16;
  K := K512;
  H0 := H512;
  bigS0 := (28, 34, 39); bigS1 := (14, 18, 41);
  smallS0 := (1, 8, 7); smallS1 := (19, 61, 6) |}.

Section Hash.
Variable p : params.

Definition wrap (x : Z) : Z := x mod 2 ^ wbits p.
Definition add (x y : Z) : Z := wrap (x + y).
Definition rotr (n x : Z) : Z :=
  Z.lor (Z.shiftr x n) (wrap (Z.shiftl x (wbits p - n))).
Definition lnot (x : Z) : Z := Z.lxor x (2 ^ wbits p - 1).

Definition Ch (x y z : Z) : Z :=
  Z.lxor (Z.land x y) (Z.land (lnot x) z).
Definition Maj (x y z : Z) : Z :=
  Z.lxor (Z.lxor (Z.land x y) (Z.land x z)) (Z.land y z).
Definition bigSigma (r : Z * Z * Z) (x : Z) : Z :=
  let '(a, b, c) := r in Z.lxor (Z.lxor (rotr a x) (rotr b x)) (rotr c x).
Definition smallSigma (r : Z * Z * Z) (x : Z) : Z :=
  let '(a, b, c) := r in
  Z.lxor (Z.lxor (rotr a x) (rotr b x)) (Z.shiftr x c).

(** Big-endian octets of a number, [n] of them. *)
Fixpoint be_bytes (n : nat) (x : Z) : buffer :=
  match n with
  | O => []
  | S n' => (x / 256 ^ Z.of_nat n') mod 256 :: be_bytes n' x
  end.

Definition be_word (bs : buffer) : Z :=
  fold_left (fun acc b => acc * 256 + b) bs 0.

Definition block_bytes : nat := (16 * wbytes p)%nat.

(** Padding: a one bit, zero bits, and the bit length of the
    message, up to a whole number of blocks. *)
Definition pad (msg : buffer) : buffer :=
  let used := (length msg + 1 + lenbytes p)%nat in
  let zeros := ((block_bytes - used mod block_bytes) mod block_bytes)%nat in
  msg ++ [0x80] ++ repeat 0 zeros
      ++ be_bytes (lenbytes p) (8 * Z.of_nat (length msg)).

Fixpoint chunks (fuel n : nat) (l : list Z) : list (list Z) :=
  match fuel with
  | O => []
  | S fuel' =>
      match l with
      | [] => []
      | _ => firstn n l :: chunks fuel' n (skipn n l)
      end
  end.

(** The message schedule of one block. *)
Fixpoint schedule (more : nat) (W : list Z) : list Z :=
  match more with
  | O => W
  | S more' =>
      let t := length W in
      let w i := nth (t - i) W 0 in
      schedule more'
        (W ++ [add (add (smallSigma (smallS1 p) (w 2%nat)) (w 7%nat))
                   (add (smallSigma (smallS0 p) (w 15%nat)) (w 16%nat))])
  end.

Record state := St { sa : Z; sb : Z; sc : Z; sd : Z;
                     se : Z; sf : Z; sg : Z; sh : Z }.

Definition state_words (s : state) : list Z :=
  [sa s; sb s; sc s; sd s; se s; sf s; sg s; sh s].

Definition round (s : state) (kw : Z * Z) : state :=
  let '(k, w) := kw in
  let T1 := add (add (add (add (sh s) (bigSigma (bigS1 p) (se s)))
                          (Ch (se s) (sf s) (sg s))) k) w in
  let T2 := add (bigSigma (bigS0 p) (sa s)) (Maj (sa s) (sb s) (sc s)) in
  St (add T1 T2) (sa s) (sb s) (sc s) (add (sd s) T1) (se s) (sf s) (sg s).

Definition compress (s : state) (block : buffer) : state :=
  let W16 := map be_word (chunks 16 (wbytes p) block) in
  let W := schedule (length (K p) - 16) W16 in
  let r := fold_left round (combine (K p) W) s in
  St (add (sa s) (sa r)) (add (sb s) (sb r)) (add (sc s) (sc r))
     (add (sd s) (sd r)) (add (se s) (se r)) (add (sf s) (sf r))
     (add (sg s) (sg r)) (add (sh s) (sh r)).

Definition init : state :=
  let h i := nth i (H0 p) 0 in
  St (h 0%nat) (h 1%nat) (h 2%nat) (h 3%nat)
     (h 4%nat) (h 5%nat) (h 6%nat) (h 7%nat).

Definition hash (msg : buffer) : buffer :=
  let padded := pad msg in
  let blocks := chunks (length padded) block_bytes padded in
  flat_map (be_bytes (wbytes p)) (state_words (fold_left compress blocks init)).

(** RFC 2104: a key longer than a block is hashed, then padded with
    zeros to a block. *)
Definition hmac (key msg : buffer) : buffer :=
  let k0 := if (block_bytes <? length key)%nat then hash key else key in
  let k := k0 ++ repeat 0 (block_bytes - length k0) in
  let ipad := map (Z.lxor 0x36) k in
  let opad := map (Z.lxor 0x5c) k in
  hash (opad ++ hash (ipad ++ msg)).
End Hash.

End SHA2.

(** [buf.toString("hex")] / [digest("hex")]: two lowercase digits per
    octet. *)
Definition hexdigit (d : Z) : Z := if d <? 10 then 48 + d else 87 + d.
Definition hex (bs : buffer) : jsstring :=
  flat_map (fun b => [hexdigit (b / 16); hexdigit (b mod 16)]) bs.

Inductive algorithm := sha256 | sha512.

Definition params_of (a : algorithm) : SHA2.params :=
  match a with
  | sha256 => SHA2.sha256_params
  | sha512 => SHA2.sha512_params
  end.

(** [crypto.createHmac(alg, secret).update(raw, "utf8").digest("hex")]:
    a string key and a string message are both taken as their UTF-8
    octets. *)
Definition createHmac_digest_hex (a : algorithm) (secret raw : jsstring)
  : jsstring :=
  hex (SHA2.hmac (params_of a) (UTF8.encode secret) (UTF8.encode raw)).

(* ------------------------------------------------------------------ *)
(** ** JavaScript values                                               *)
(* ------------------------------------------------------------------ *)

(** What [JSON.parse] returns, and [undefined]. An object is kept as the
    list of its properties; [lookup] takes the first binding of a name. *)
Inductive value :=
| VUndefined
| VNull
| VBool (b : bool)
| VNum (x : float)
| VStr (s : jsstring)
| VArr (items : list value)
| VObj (props : list (jsstring * value)).

Inductive exn := RangeError | TypeError | SyntaxError | Error.

Inductive result (A : Type) :=
| Ok (a : A)
| Throw (e : exn).
Arguments Ok {A} a.
Arguments Throw {A} e.

(** Truthiness, as [!x], [x || y] and [x ? y : z] see it. *)
Definition truthy (v : value) : bool :=
  match v with
  | VUndefined | VNull => false
  | VBool b => b
  | VNum x => negb (is_zero x || is_nan x)
  | VStr s => match s with [] => false | _ => true end
  | VArr _ | VObj _ => true
  end.

(** [a || b] and [a ?? b] on operands whose evaluation has no effect. *)
Definition or_ (a b : value) : value := if truthy a then a else b.
Definition nullish (v : value) : bool :=
  match v with VUndefined | VNull => true | _ => false end.
Definition coalesce (a b : value) : value := if nullish a then b else a.

Fixpoint lookup (k : jsstring) (props : list (jsstring * value)) : value :=
  match props with
  | [] => VUndefined
  | (k', v) :: rest => if list_eqb k' k then v else lookup k rest
  end.

Fixpoint has_own (k : jsstring) (props : list (jsstring * value)) : bool :=
  match props with
  | [] => false
  | (k', _) :: rest => list_eqb k' k || has_own k rest
  end.

(** [v.k]: a TypeError on [undefined] and [null]. The names the program
    reads are none of the built-in properties of strings, numbers,
    booleans or arrays, so only an object can hold them. *)
Definition getProp (v : value) (k : jsstring) : result value :=
  match v with
  | VUndefined | VNull => Throw TypeError
  | VObj props => Ok (lookup k props)
  | _ => Ok VUndefined
  end.

(** [v?.k] *)
Definition optProp (v : value) (k : jsstring) : value :=
  match getProp v k with
  | Ok x => x
  | Throw _ => VUndefined
  end.

(** [v === "literal"] and [typeof v === "string"] *)
Definition strict_eq_str (v : value) (s : jsstring) : bool :=
  match v with
  | VStr t => list_eqb t s
  | _ => false
  end.
Definition is_string (v : value) : bool :=
  match v with VStr _ => true | _ => false end.

(** The values of [process.env], of [req.headers] and of [req.rawBody]
    are strings or [undefined]. *)
Definition falsy (s : option jsstring) : bool :=
  match s with
  | None | Some [] => true
  | Some (_ :: _) => false
  end.
Definition str (s : option jsstring) : jsstring :=
  match s with Some x => x | None => [] end.

(* ------------------------------------------------------------------ *)
(** ** The regular expression [/type=(\w+)/i]                          *)
(* ------------------------------------------------------------------ *)

Module Regex.

(** [\w] without the [u] flag: the ASCII letters, digits and [_]. *)
Definition word_char (c : Z) : bool :=
  between 97 c 122 || between 65 c 90 || between 48 c 57 || (c =? 95).

(** A pattern character under the [i] flag (no [u] flag): characters are
    compared by their upper-case forms, and no character outside ASCII
    is folded onto an ASCII one. *)
Definition upper (c : Z) : Z := if between 97 c 122 then c - 32 else c.
Definition char_ci (p c : Z) : bool := (c =? p) || (c =? upper p).

(** The rest of [s] after the pattern text, when [s] starts with it. *)
Fixpoint prefix_ci (pat s : jsstring) : option jsstring :=
  match pat, s with
  | [], _ => Some s
  | p :: pat', c :: s' => if char_ci p c then prefix_ci pat' s' else None
  | _ :: _, [] => None
  end.

(** [\w+] is greedy and nothing follows it: the longest run. *)
Fixpoint take_word (s : jsstring) : jsstring :=
  match s with
  | c :: s' => if word_char c then c :: take_word s' else []
  | [] => []
  end.

Definition match_here (s : jsstring) : option jsstring :=
  match prefix_ci (js "type=") s with
  | Some r => match take_word r with
              | [] => None
              | w => Some w
              end
  | None => None
  end.

(** [s.match(/type=(\w+)/i)]: [m[1]] of the leftmost match, or [null]. *)
Fixpoint match_type (s : jsstring) : option jsstring :=
  match match_here s with
  | Some w => Some w
  | None => match s with
            | [] => None
            | _ :: s' => match_type s'
            end
  end.

(** [w.toLowerCase()] on what [\w+] can capture. *)
Definition lower (c : Z) : Z := if between 65 c 90 then c + 32 else c.
Definition toLowerCase (w : jsstring) : jsstring := map lower w.

End Regex.

(* ------------------------------------------------------------------ *)
(** ** Signature verification                                          *)
(* ------------------------------------------------------------------ *)

(** [Buffer.from(s)]: the UTF-8 octets of a string. *)
Definition Buffer_from (s : jsstring) : buffer := UTF8.encode s.

(** [crypto.timingSafeEqual(a, b)] throws a RangeError when the two
    buffers differ in byte length. *)
Definition timingSafeEqual (a b : buffer) : result bool :=
  if (length a =? length b)%nat then Ok (list_eqb a b) else Throw RangeError.

Definition verifyLemonSignature (raw header secret : option jsstring)
  : result bool :=
  if falsy raw || falsy header || falsy secret then Ok false
  else
    let digest := createHmac_digest_hex sha256 (str secret) (str raw) in
    timingSafeEqual (Buffer_from (str header)) (Buffer_from digest).

Definition verifyNowPaymentsSignature (raw header secret : option jsstring)
  : result bool :=
  if falsy raw || falsy header || falsy secret then Ok false
  else
    let digest := createHmac_digest_hex sha512 (str secret) (str raw) in
    timingSafeEqual (Buffer_from (str header)) (Buffer_from digest).

(* ------------------------------------------------------------------ *)
(** ** Requests, raw body capture                                      *)
(* ------------------------------------------------------------------ *)

(** What a handler reads of a request: [req.headers], whose names Node
    gives in lower case, and [req.rawBody]. *)
Record request := {
  headers : list (jsstring * jsstring);
  rawBody : option jsstring
}.

(** [req.headers[name]] *)
Fixpoint header (name : jsstring) (hs : list (jsstring * jsstring))
  : option jsstring :=
  match hs with
  | [] => None
  | (n, v) :: rest => if list_eqb n name then Some v else header name rest
  end.

(** [rawBodySaver]: the [verify] hook of [express.raw] on the paths
    under [/webhook/] and of [express.json] elsewhere. [buf] is the body
    the parser read, or nothing. *)
Definition rawBodySaver (req : request) (buf : option buffer) : request :=
  match buf with
  | Some (b :: bs) =>
      {| headers := headers req; rawBody := Some (UTF8.toString (b :: bs)) |}
  | _ => req
  end.

(** A request as a body parser leaves it: the headers, and the buffer
    the parser gave the [verify] hook, when it read a body. That buffer
    is the body of the request unless the request has a
    [Content-Encoding], which the parser undoes first ([read] below). *)
Definition capture (hs : list (jsstring * jsstring)) (body : option buffer)
  : request :=
  rawBodySaver {| headers := hs; rawBody := None |} body.

(** The octets the keyed digest is computed over:
    [hmac.update(req.rawBody, "utf8")]. *)
Definition digest_input (req : request) : buffer :=
  UTF8.encode (str (rawBody req)).

(* ------------------------------------------------------------------ *)
(** ** The platform                                                    *)
(* ------------------------------------------------------------------ *)

(** A normalized order, the argument of [notifyOrder]. *)
Record order := {
  buyerEmail : value;
  websiteType : value;
  amount : value;
  currency : value;
  raw : value
}.

(** What the handlers use of their surroundings without this file
    looking inside:
    - [JSON_parse s]: [JSON.parse(s)], [None] for a SyntaxError;
    - [StringToNumber s]: the number a string is coerced to by [/];
    - [ArrayToNumber items]: the same for an array, which is joined
      into a string first; a TypeError when an element cannot be made a
      string;
    - [notifyOrder o]: whether the promise of [notifyOrder(o)]
      (index.js:65) resolves ([true]) or rejects ([false]: OWNER_EMAIL
      not set, or the mail transport failing). The handlers observe
      nothing else of it. *)
Record platform := {
  JSON_parse : jsstring -> option value;
  StringToNumber : jsstring -> float;
  ArrayToNumber : list value -> result float;
  notifyOrder : order -> bool
}.

Record env := {
  LEMONSQUEEZY_SIGNING_SECRET : option jsstring;
  NOWPAYMENTS_IPN_SECRET : option jsstring
}.

Record response := {
  status : Z;
  sent : jsstring
}.

(** Handlers run in a monad of exceptions that logs the calls of
    [notifyOrder], the notification attempts. *)
Definition M (A : Type) : Type := list order -> result A * list order.

Definition ret {A} (a : A) : M A := fun log => (Ok a, log).
Definition throw {A} (e : exn) : M A := fun log => (Throw e, log).
Definition bind {A B} (m : M A) (k : A -> M B) : M B :=
  fun log =>
    match m log with
    | (Ok a, log') => k a log'
    | (Throw e, log') => (Throw e, log')
    end.
Definition lift {A} (r : result A) : M A := fun log => (r, log).
Definition try_catch {A} (m : M A) (handler : exn -> M A) : M A :=
  fun log =>
    match m log with
    | (Ok a, log') => (Ok a, log')
    | (Throw e, log') => handler e log'
    end.

Declare Scope js_scope.
Delimit Scope js_scope with js.
Notation "x <- m ;; k" := (bind m (fun x => k))
  (at level 61, m at next level, right associativity) : js_scope.
Notation "m ;;; k" := (bind m (fun _ => k))
  (at level 61, right associativity) : js_scope.

Section Routes.

Variable pf : platform.
Variable e : env.

Local Open Scope js_scope.

(** [await notifyOrder(o)] *)
Definition await_notifyOrder (o : order) : M unit :=
  fun log => (if notifyOrder pf o then Ok tt else Throw Error, log ++ [o]).

Definition parse (s : jsstring) : M value :=
  match JSON_parse pf s with
  | Some v => ret v
  | None => throw SyntaxError
  end.

(** [ToNumber], and [a / b]. A parsed object inherits [valueOf], which
    returns the object, and [toString], which returns "[object Object]",
    not a number; a property of its own named [toString] hides the
    latter and is no function, and then no primitive is found. *)
Definition ToNumber (v : value) : result float :=
  match v with
  | VUndefined => Ok nan
  | VNull => Ok zero
  | VBool b => Ok (if b then one else zero)
  | VNum x => Ok x
  | VStr s => Ok (StringToNumber pf s)
  | VArr items => ArrayToNumber pf items
  | VObj props =>
      if has_own (js "toString") props then Throw TypeError else Ok nan
  end.

Definition js_div (a b : value) : result value :=
  match ToNumber a with
  | Throw x => Throw x
  | Ok x => match ToNumber b with
            | Throw y => Throw y
            | Ok y => Ok (VNum (x / y)%float)
            end
  end.

Definition hundred : float := 100%float.

(** *** LemonSqueezy *)

(** [evt?.meta?.event_name || evt?.event] *)
Definition lemon_event_name (evt : value) : value :=
  or_ (optProp (optProp evt (js "meta")) (js "event_name"))
      (optProp evt (js "event")).

Definition lemon_success (type : value) : bool :=
  strict_eq_str type (js "order_created")
  || strict_eq_str type (js "subscription_payment_success").

(** Lines 129-130: [evt?.data || {}], then [data?.attributes || {}]. *)
Definition lemon_attributes (evt : value) : value :=
  let data := or_ (optProp evt (js "data")) (VObj []) in
  or_ (optProp data (js "attributes")) (VObj []).

(** [attributes?.total] *)
Definition lemon_total (evt : value) : value :=
  optProp (lemon_attributes evt) (js "total").

(** Lines 129-143: the order of a LemonSqueezy event. *)
Definition lemon_extract (evt : value) : result order :=
  let attributes := lemon_attributes evt in
  let buyerEmail :=
    or_ (or_ (optProp attributes (js "user_email"))
             (optProp attributes (js "customer_email"))) VNull in
  let currency := or_ (optProp attributes (js "currency")) (VStr (js "USD")) in
  match js_div (coalesce (lemon_total evt) (VNum zero))
               (VNum hundred) with
  | Throw x => Throw x
  | Ok amount =>
      let websiteType :=
        or_ (or_ (optProp (optProp attributes (js "custom")) (js "websiteType"))
                 (optProp (optProp (optProp evt (js "meta")) (js "custom_data"))
                          (js "websiteType")))
            (VStr (js "unknown")) in
      Ok {| buyerEmail := buyerEmail; websiteType := websiteType;
            amount := amount; currency := currency; raw := evt |}
  end.

Definition lemon_try (req : request) : M response :=
  let sig := header (js "x-signature") (headers req) in
  let secret := LEMONSQUEEZY_SIGNING_SECRET e in
  ok <- lift (verifyLemonSignature (rawBody req) sig secret) ;;
  if negb ok then
    ret {| status := 400; sent := js "Invalid LemonSqueezy signature" |}
  else
    evt <- parse (if falsy (rawBody req) then js "{}" else str (rawBody req)) ;;
    let type := lemon_event_name evt in
    (if lemon_success type then
       o <- lift (lemon_extract evt) ;;
       await_notifyOrder o
     else ret tt) ;;;
    ret {| status := 200; sent := js "ok" |}.

(** [app.post("/webhook/lemonsqueezy", ...)]: the answer and the
    notification attempts of one request. *)
Definition lemonsqueezy (req : request) : response * list order :=
  match try_catch (lemon_try req)
          (fun _ => ret {| status := 500; sent := js "server error" |}) [] with
  | (Ok r, log) => (r, log)
  | (Throw _, log) => ({| status := 500; sent := js "server error" |}, log)
  end.

(** *** NOWPayments *)

(** Lines 193-197: the website type out of [order_description]. *)
Definition now_websiteType (evt : value) : result value :=
  if is_string (optProp evt (js "order_description")) then
    match getProp evt (js "order_description") with
    | Throw x => Throw x
    | Ok (VStr d) =>
        match Regex.match_type d with
        | Some w => Ok (VStr (Regex.toLowerCase w))
        | None => Ok (VStr (js "unknown"))
        end
    | Ok _ => Throw TypeError
    end
  else Ok (VStr (js "unknown")).

(** Lines 188-197: the order of a NOWPayments event. *)
Definition now_extract (evt : value) : result order :=
  let buyerEmail := or_ (optProp evt (js "customer_email")) VNull in
  let amount := optProp evt (js "price_amount") in
  let currency := or_ (optProp evt (js "price_currency")) (VStr (js "USD")) in
  match now_websiteType evt with
  | Throw x => Throw x
  | Ok websiteType =>
      Ok {| buyerEmail := buyerEmail; websiteType := websiteType;
            amount := amount; currency := currency; raw := evt |}
  end.

Definition now_success (evt : value) : bool :=
  strict_eq_str (optProp evt (js "payment_status")) (js "finished").

Definition now_try (req : request) : M response :=
  let sig := header (js "x-nowpayments-sig") (headers req) in
  let secret := NOWPAYMENTS_IPN_SECRET e in
  ok <- lift (verifyNowPaymentsSignature (rawBody req) sig secret) ;;
  if negb ok then
    ret {| status := 400; sent := js "Invalid NOWPayments signature" |}
  else
    evt <- parse (if falsy (rawBody req) then js "{}" else str (rawBody req)) ;;
    (if now_success evt then
       o <- lift (now_extract evt) ;;
       await_notifyOrder o
     else ret tt) ;;;
    ret {| status := 200; sent := js "ok" |}.

(** [app.post("/webhook/nowpayments", ...)] *)
Definition nowpayments (req : request) : response * list order :=
  match try_catch (now_try req)
          (fun _ => ret {| status := 500; sent := js "server error" |}) [] with
  | (Ok r, log) => (r, log)
  | (Throw _, log) => ({| status := 500; sent := js "server error" |}, log)
  end.

End Routes.

(** The two webhook routes, each with its own header, secret, digest
    and handler. *)
Inductive route := LemonSqueezy | NOWPayments.

Definition sig_header (r : route) : jsstring :=
  match r with
  | LemonSqueezy => js "x-signature"
  | NOWPayments => js "x-nowpayments-sig"
  end.

Definition secret_of (r : route) (e : env) : option jsstring :=
  match r with
  | LemonSqueezy => LEMONSQUEEZY_SIGNING_SECRET e
  | NOWPayments => NOWPAYMENTS_IPN_SECRET e
  end.

Definition algorithm_of (r : route) : algorithm :=
  match r with
  | LemonSqueezy => sha256
  | NOWPayments => sha512
  end.

Definition verifier (r : route)
  : option jsstring -> option jsstring -> option jsstring -> result bool :=
  match r with
  | LemonSqueezy => verifyLemonSignature
  | NOWPayments => verifyNowPaymentsSignature
  end.

Definition webhook (r : route) (pf : platform) (e : env) (req : request)
  : response * list order :=
  match r with
  | LemonSqueezy => lemonsqueezy pf e req
  | NOWPayments => nowpayments pf e req
  end.

(** Is the event a successful payment, and its order. *)
Definition success (r : route) (evt : value) : bool :=
  match r with
  | LemonSqueezy => lemon_success (lemon_event_name evt)
  | NOWPayments => now_success evt
  end.

Definition extract (r : route) (pf : platform) (evt : value) : result order :=
  match r with
  | LemonSqueezy => lemon_extract pf evt
  | NOWPayments => now_extract evt
  end.

(** [Sign(body, secret)]: the header value a provider sends. *)
Definition sign (r : route) (secret body : jsstring) : jsstring :=
  createHmac_digest_hex (algorithm_of r) secret body.

(** The number of characters of a hexadecimal digest. *)
Definition digest_size (a : algorithm) : nat :=
  match a with sha256 => 64%nat | sha512 => 128%nat end.

(** The verification of a request on its route: the raw body against
    the route's header under the route's secret. *)
Definition verification (r : route) (e : env) (req : request) : result bool :=
  verifier r (rawBody req) (header (sig_header r) (headers req))
    (secret_of r e).

Definition invalid_signature (r : route) : response :=
  match r with
  | LemonSqueezy =>
      {| status := 400; sent := js "Invalid LemonSqueezy signature" |}
  | NOWPayments =>
      {| status := 400; sent := js "Invalid NOWPayments signature" |}
  end.

Definition server_error : response :=
  {| status := 500; sent := js "server error" |}.
Definition ok_response : response := {| status := 200; sent := js "ok" |}.


(* ------------------------------------------------------------------ *)
(** ** The specification's words                                       *)
(* ------------------------------------------------------------------ *)

(** "A [type=<word>] token, matched case-insensitively": [d] is
    [pre ++ ty ++ w ++ rest], where [ty] reads "type=" in any case, [w]
    is a non-empty word and the word ends there. *)
Definition type_token (d pre ty w rest : jsstring) : Prop :=
  d = pre ++ ty ++ w ++ rest
  /\ Regex.toLowerCase ty = js "type="
  /\ w <> []
  /\ forallb Regex.word_char w = true
  /\ match rest with
     | c :: _ => Regex.word_char c = false
     | [] => True
     end.

(** "The pattern does not match": no "type=" followed by a word
    character anywhere in [d]. *)
Definition no_type_token (d : jsstring) : Prop :=
  forall pre ty c rest,
    d = pre ++ ty ++ c :: rest ->
    Regex.toLowerCase ty = js "type=" ->
    Regex.word_char c = false.

(** A field is absent when reading it gives [undefined]. *)
Definition absent (v : value) : Prop := v = VUndefined.

(** The values that are neither an array nor an object. *)
Definition primitive (v : value) : Prop :=
  match v with
  | VArr _ | VObj _ => False
  | _ => True
  end.

(* ------------------------------------------------------------------ *)
(** ** Worked requests                                                 *)
(* ------------------------------------------------------------------ *)

Module Examples.

Local Open Scope string_scope.

(** JSON text, written with ['] for the double quote. *)
Definition json (s : string) : jsstring :=
  map (fun c => if (c =? 39)%Z then 34 else c) (js s).

Definition obj (props : list (string * value)) : value :=
  VObj (map (fun kv => (js (fst kv), snd kv)) props).
Definition text (s : string) : value := VStr (js s).

(** The end-to-end order of the specification. *)
Definition order_body : jsstring :=
  json "{'meta':{'event_name':'order_created'},'data':{'attributes':{'total':5000,'currency':'EUR','customer_email':'a@b.com'}}}".
Definition order_event : value :=
  obj [("meta", obj [("event_name", text "order_created")]);
       ("data", obj [("attributes",
          obj [("total", VNum 5000); ("currency", text "EUR");
               ("customer_email", text "a@b.com")])])].

(** An order whose total is an object that hides [toString]. *)
Definition odd_total_body : jsstring :=
  json "{'event':'order_created','data':{'attributes':{'total':{'toString':1}}}}".
Definition odd_total_event : value :=
  obj [("event", text "order_created");
       ("data", obj [("attributes",
          obj [("total", obj [("toString", VNum 1)])])])].

Definition total_2500_event : value :=
  obj [("data", obj [("attributes", obj [("total", VNum 2500)])])].

Definition finished_body : jsstring :=
  json "{'payment_status':'finished','price_amount':25,'order_description':'type=AI;email=x@y.com'}".
Definition finished_event : value :=
  obj [("payment_status", text "finished"); ("price_amount", VNum 25);
       ("order_description", text "type=AI;email=x@y.com")].

Definition bare_finished_body : jsstring := json "{'payment_status':'finished'}".
Definition bare_finished_event : value :=
  obj [("payment_status", text "finished")].

Definition waiting_body : jsstring := json "{'payment_status':'waiting'}".
Definition waiting_event : value := obj [("payment_status", text "waiting")].

Definition empty_body : jsstring := json "{}".

Fixpoint assoc (s : jsstring) (table : list (jsstring * value)) : option value :=
  match table with
  | [] => None
  | (k, v) :: rest => if list_eqb k s then Some v else assoc s rest
  end.

(** A platform for the examples: [JSON.parse] on the bodies above, a
    mail transport that works; the examples coerce no string and no
    array. *)
Definition node : platform := {|
  JSON_parse := fun s =>
    assoc s [(order_body, order_event); (odd_total_body, odd_total_event);
             (finished_body, finished_event);
             (bare_finished_body, bare_finished_event);
             (waiting_body, waiting_event); (empty_body, VObj [])];
  StringToNumber := fun _ => nan;
  ArrayToNumber := fun _ => Ok nan;
  notifyOrder := fun _ => true
|}.

Definition secrets : env := {|
  LEMONSQUEEZY_SIGNING_SECRET := Some (js "lemon-secret");
  NOWPAYMENTS_IPN_SECRET := Some (js "ipn-secret")
|}.

(** A request as a provider holding [secret] sends it. *)
Definition signed (r : route) (secret body : jsstring) : request :=
  capture [(sig_header r, sign r secret body)] (Some (UTF8.encode body)).

(** "{e-acute, euro sign, grinning face}" in UTF-8. *)
Definition utf8_body : buffer :=
  [0x7B; 0xC3; 0xA9; 0xE2; 0x82; 0xAC; 0xF0; 0x9F; 0x98; 0x80; 0x7D].

End Examples.

(* ------------------------------------------------------------------ *)
(** ** The notifier: [notifyOrder]                                     *)
(* ------------------------------------------------------------------ *)

(** The argument of [transporter.sendMail]. The addressee of the buyer
    confirmation is the buyer email as extracted, whatever its type. *)
Record mail := {
  mail_from : jsstring;
  mail_to : value;
  mail_subject : jsstring;
  mail_html : jsstring
}.

(** What [notifyOrder] uses of its surroundings:
    - [sendMail m]: whether [transporter.sendMail(m)] resolves;
    - [NumberToString x], [ArrayToString items]: the text of a number
      and of an array in a template or under [+]; joining an array
      throws a TypeError when an element has no text;
    - [JSON_stringify v]: the text [JSON.stringify(v, null, 2)] leaves
      in a template. *)
Record mailer := {
  sendMail : mail -> bool;
  NumberToString : float -> jsstring;
  ArrayToString : list value -> result jsstring;
  JSON_stringify : value -> jsstring
}.

(** The variables of [process.env] that [notifyOrder] reads. *)
Record mail_env := {
  OWNER_EMAIL : option jsstring;
  SMTP_USER : option jsstring;
  SEND_BUYER_CONFIRMATION : option jsstring
}.

Module Notifier.

(** *** The pattern [/\S+@\S+\.\S+/] *)

(** [\s]: the white space and the line terminators of ECMAScript. *)
Definition is_space (c : Z) : bool :=
  between 9 c 13 || (c =? 32) || (c =? 0xA0) || (c =? 0x1680)
  || between 0x2000 c 0x200A || (c =? 0x2028) || (c =? 0x2029)
  || (c =? 0x202F) || (c =? 0x205F) || (c =? 0x3000) || (c =? 0xFEFF).
Definition non_space (c : Z) : bool := negb (is_space c).

(** [\S+] followed by [k]: the longest run first, then shorter ones. *)
Fixpoint plus_then (k : jsstring -> bool) (s : jsstring) : bool :=
  match s with
  | c :: s' => non_space c && (plus_then k s' || k s')
  | [] => false
  end.

(** One given character followed by [k]. *)
Definition char_then (c : Z) (k : jsstring -> bool) (s : jsstring) : bool :=
  match s with
  | x :: s' => (x =? c) && k s'
  | [] => false
  end.

Definition match_here (s : jsstring) : bool :=
  plus_then (char_then 64 (plus_then (char_then 46
    (plus_then (fun _ => true))))) s.

(** [/\S+@\S+\.\S+/.test(s)]: a match at some position of [s]. *)
Fixpoint test (s : jsstring) : bool :=
  match_here s
  || match s with
     | [] => false
     | _ :: s' => test s'
     end.

(** *** Texts *)

(** The text of a value in a template literal and under [+] with a
    string. A parsed object reads "[object Object]" unless a property
    of its own named [toString] hides the inherited function. *)
Definition ToString (m : mailer) (v : value) : result jsstring :=
  match v with
  | VUndefined => Ok (js "undefined")
  | VNull => Ok (js "null")
  | VBool b => Ok (if b then js "true" else js "false")
  | VNum x => Ok (NumberToString m x)
  | VStr s => Ok s
  | VArr items => ArrayToString m items
  | VObj props =>
      if has_own (js "toString") props then Throw TypeError
      else Ok (js "[object Object]")
  end.

(** [${process.env.NAME}] *)
Definition env_text (v : option jsstring) : jsstring :=
  match v with
  | Some s => s
  | None => js "undefined"
  end.

(** A text with ['] written for the double quote. *)
Definition dq (s : string) : jsstring :=
  map (fun c => if c =? 39 then 34 else c) (js s).

Definition nl : jsstring := [10].

(** The monad of [notifyOrder]: exceptions, and the log of the calls of
    [sendMail]. *)
Definition N (A : Type) : Type := list mail -> result A * list mail.

Definition nret {A} (a : A) : N A := fun log => (Ok a, log).
Definition nthrow {A} (x : exn) : N A := fun log => (Throw x, log).
Definition nbind {A B} (c : N A) (k : A -> N B) : N B :=
  fun log =>
    match c log with
    | (Ok a, log') => k a log'
    | (Throw x, log') => (Throw x, log')
    end.
Definition nlift {A} (r : result A) : N A := fun log => (r, log).

Declare Scope mail_scope.
Delimit Scope mail_scope with mail.
Notation "x <- c ;; k" := (nbind c (fun x => k))
  (at level 61, c at next level, right associativity) : mail_scope.
Notation "c ;;; k" := (nbind c (fun _ => k))
  (at level 61, right associativity) : mail_scope.

Section Notify.

Variable m : mailer.
Variable ne : mail_env.

Local Open Scope mail_scope.

(** [await transporter.sendMail(x)] *)
Definition await_sendMail (x : mail) : N unit :=
  fun log => (if sendMail m x then Ok tt else Throw Error, log ++ [x]).

Definition text (v : value) : N jsstring := nlift (ToString m v).

(** Line 69. *)
Definition owner_subject (o : order) : N jsstring :=
  t <- text (or_ (websiteType o) (VStr (js "website"))) ;;
  b <- (if truthy (buyerEmail o)
        then (b <- text (buyerEmail o) ;; nret (js "from " ++ b))
        else nret []) ;;
  nret (js "New " ++ t ++ js " order " ++ b).

(** Lines 70-78. *)
Definition owner_html (o : order) : N jsstring :=
  t <- text (or_ (websiteType o) (VStr (js "unknown"))) ;;
  b <- text (or_ (buyerEmail o) (VStr (js "unknown"))) ;;
  a <- text (or_ (amount o) (VStr (js "?"))) ;;
  c <- text (or_ (currency o) (VStr [])) ;;
  nret (nl ++ js "    <h2>New Website Order</h2>" ++ nl
        ++ js "    <p><b>Type:</b> " ++ t ++ js "</p>" ++ nl
        ++ js "    <p><b>Buyer:</b> " ++ b ++ js "</p>" ++ nl
        ++ js "    <p><b>Total:</b> " ++ a ++ js " " ++ c ++ js "</p>" ++ nl
        ++ dq "    <pre style='background:#0d1117;color:#e6edf3;padding:12px;border-radius:8px;overflow:auto'>"
        ++ nl ++ JSON_stringify m (raw o) ++ nl
        ++ js "    </pre>" ++ nl ++ js "  ").

(** Lines 90-97. *)
Definition buyer_mail (o : order) : N mail :=
  t <- text (or_ (websiteType o) (VStr (js "website"))) ;;
  nret {| mail_from := js "Faris " ++ [0x2022] ++ js " Coding Engineer <"
                       ++ env_text (SMTP_USER ne) ++ js ">";
          mail_to := buyerEmail o;
          mail_subject := js "Thanks! I received your " ++ t ++ js " order";
          mail_html :=
            nl ++ js "        <h3>Thank you!</h3>" ++ nl
            ++ js "        <p>I just got your order. I'll email you shortly to collect requirements.</p>"
            ++ nl ++ js "        <p>" ++ [0x2014] ++ js " Faris</p>" ++ nl
            ++ js "      " |}.

(** Line 88: [buyerEmail && /\S+@\S+\.\S+/.test(buyerEmail) &&
    process.env.SEND_BUYER_CONFIRMATION === "true"]. *)
Definition buyer_wanted (o : order) : N bool :=
  if truthy (buyerEmail o) then
    b <- text (buyerEmail o) ;;
    if test b then
      nret (match SEND_BUYER_CONFIRMATION ne with
            | Some flag => list_eqb flag (js "true")
            | None => false
            end)
    else nret false
  else nret false.

(** [notifyOrder] (lines 65-100), run on an empty log: how it settles,
    and the mails it handed to the transport, in order. *)
Definition notifyOrder (o : order) : result unit * list mail :=
  (if falsy (OWNER_EMAIL ne) then nthrow Error
   else
     subject <- owner_subject o ;;
     html <- owner_html o ;;
     await_sendMail {| mail_from := js "Orders <" ++ env_text (SMTP_USER ne)
                                    ++ js ">";
                       mail_to := VStr (str (OWNER_EMAIL ne));
                       mail_subject := subject;
                       mail_html := html |} ;;;
     wanted <- buyer_wanted o ;;
     if wanted then (bm <- buyer_mail o ;; await_sendMail bm)
     else nret tt) [].

End Notify.

End Notifier.

(** A platform whose [notifyOrder] is the notifier above, and the mails
    a webhook request hands to the transport: those of the calls of
    [notifyOrder] its handler makes. *)
Definition with_notifier (pf : platform) (m : mailer) (ne : mail_env)
  : platform := {|
  JSON_parse := JSON_parse pf;
  StringToNumber := StringToNumber pf;
  ArrayToNumber := ArrayToNumber pf;
  notifyOrder := fun o =>
    match fst (Notifier.notifyOrder m ne o) with
    | Ok _ => true
    | Throw _ => false
    end
|}.

Definition serve (r : route) (pf : platform) (m : mailer) (ne : mail_env)
  (e : env) (req : request) : response * list mail :=
  let '(answer, calls) := webhook r (with_notifier pf m ne) e req in
  (answer, flat_map (fun o => snd (Notifier.notifyOrder m ne o)) calls).

(* ------------------------------------------------------------------ *)
(** ** Configuration read at start                                     *)
(* ------------------------------------------------------------------ *)

Module Config.

(** [process.env.NAME || "default"] *)
Definition env_or (v : option jsstring) (default : jsstring) : jsstring :=
  if falsy v then default else str v.

Record site_env := {
  SITE_NAME : option jsstring;
  APP_ENV : option jsstring;
  PUBLIC_BASE_URL : option jsstring
}.

(** The object [/config.json] answers with. *)
Record config := {
  site : jsstring;
  env_name : jsstring;
  baseUrl : jsstring
}.

Definition config_json (se : site_env) : config := {|
  site := env_or (SITE_NAME se) (js "GoldenSpaceAI");
  env_name := env_or (APP_ENV se) (js "dev");
  baseUrl := env_or (PUBLIC_BASE_URL se) []
|}.

Record smtp_env := {
  SMTP_HOST : option jsstring;
  SMTP_PORT : option jsstring;
  SMTP_SECURE : option jsstring;
  SMTP_PASS : option jsstring
}.

(** The options of [nodemailer.createTransport]. *)
Record transport := {
  host : option jsstring;
  port : float;
  secure : bool;
  auth_user : option jsstring;
  auth_pass : option jsstring
}.

(** Lines 54-62; [toNumber] is [Number] on a string, [user] is
    [process.env.SMTP_USER]. *)
Definition transporter (toNumber : jsstring -> float) (se : smtp_env)
  (user : option jsstring) : transport := {|
  host := SMTP_HOST se;
  port := if falsy (SMTP_PORT se) then 465%float
          else toNumber (str (SMTP_PORT se));
  secure := list_eqb (env_or (SMTP_SECURE se) (js "true")) (js "true");
  auth_user := user;
  auth_pass := SMTP_PASS se
|}.

End Config.

(* ------------------------------------------------------------------ *)
(** ** More of the specification's words                               *)
(* ------------------------------------------------------------------ *)

(** A string "looks like an email": somewhere in it, with no white
    space inside, something, an [@], something, a dot, something. *)
Definition email_shape (s : jsstring) : Prop :=
  exists pre a b c post,
    s = pre ++ a ++ 64 :: b ++ 46 :: c ++ post
    /\ a <> [] /\ b <> [] /\ c <> []
    /\ forallb Notifier.non_space (a ++ b ++ c) = true.

(** Well-formed UTF-16: every surrogate is half of a pair. *)
Inductive wellformed16 : jsstring -> Prop :=
| wf16_end : wellformed16 []
| wf16_unit u rest :
    0 <= u < 0xD800 \/ 0xE000 <= u < 0x10000 ->
    wellformed16 rest -> wellformed16 (u :: rest)
| wf16_pair h l rest :
    0xD800 <= h <= 0xDBFF -> 0xDC00 <= l <= 0xDFFF ->
    wellformed16 rest -> wellformed16 (h :: l :: rest).

(** A [type=<word>] token begins at the start of [s]. *)
Definition starts_with_token (s : jsstring) : Prop :=
  exists ty c rest,
    s = ty ++ c :: rest
    /\ Regex.toLowerCase ty = js "type="
    /\ Regex.word_char c = true.

(** The lower-case word characters: what [\w+] holds once lower-cased. *)
Definition lower_word_char (c : Z) : bool :=
  between 97 c 122 || between 48 c 57 || (c =? 95).

(* ------------------------------------------------------------------ *)
(** ** Runs                                                            *)
(* ------------------------------------------------------------------ *)

(** Every run of a handler is one of these six. *)
Inductive outcome (r : route) (pf : platform) (e : env) (req : request)
  : response * list order -> Prop :=
| out_rejected :
    verification r e req = Ok false ->
    outcome r pf e req (invalid_signature r, [])
| out_verifier_throws x :
    verification r e req = Throw x ->
    outcome r pf e req (server_error, [])
| out_unparsable :
    verification r e req = Ok true ->
    JSON_parse pf (str (rawBody req)) = None ->
    outcome r pf e req (server_error, [])
| out_other evt :
    verification r e req = Ok true ->
    JSON_parse pf (str (rawBody req)) = Some evt ->
    success r evt = false ->
    outcome r pf e req (ok_response, [])
| out_extract_throws evt x :
    verification r e req = Ok true ->
    JSON_parse pf (str (rawBody req)) = Some evt ->
    success r evt = true ->
    extract r pf evt = Throw x ->
    outcome r pf e req (server_error, [])
| out_notified evt o :
    verification r e req = Ok true ->
    JSON_parse pf (str (rawBody req)) = Some evt ->
    success r evt = true ->
    extract r pf evt = Ok o ->
    outcome r pf e req
      (if notifyOrder pf o then ok_response else server_error, [o]).

(** Line 88, the last test: [SEND_BUYER_CONFIRMATION === "true"]. *)
Definition buyer_flag (ne : mail_env) : bool :=
  match SEND_BUYER_CONFIRMATION ne with
  | Some flag => list_eqb flag (js "true")
  | None => false
  end.

(** The mail of lines 80-85, as far as it is addressed. *)
Definition owner_mail (ne : mail_env) (om : mail) : Prop :=
  falsy (OWNER_EMAIL ne) = false
  /\ mail_to om = VStr (str (OWNER_EMAIL ne))
  /\ mail_from om
     = js "Orders <" ++ Notifier.env_text (SMTP_USER ne) ++ js ">".

(** Every run of [notifyOrder] is one of these five. *)
Inductive delivery (m : mailer) (ne : mail_env) (o : order)
  : result unit * list mail -> Prop :=
| del_no_owner :
    falsy (OWNER_EMAIL ne) = true ->
    delivery m ne o (Throw Error, [])
| del_no_text x :
    falsy (OWNER_EMAIL ne) = false ->
    delivery m ne o (Throw x, [])
| del_owner_rejected om :
    owner_mail ne om -> sendMail m om = false ->
    delivery m ne o (Throw Error, [om])
| del_owner_only om :
    owner_mail ne om -> sendMail m om = true ->
    (truthy (buyerEmail o) = false
     \/ (exists t, Notifier.ToString m (buyerEmail o) = Ok t
                   /\ Notifier.test t = false)
     \/ buyer_flag ne = false) ->
    delivery m ne o (Ok tt, [om])
| del_both om bm t :
    owner_mail ne om -> sendMail m om = true ->
    truthy (buyerEmail o) = true ->
    Notifier.ToString m (buyerEmail o) = Ok t ->
    Notifier.test t = true ->
    buyer_flag ne = true ->
    mail_to bm = buyerEmail o ->
    delivery m ne o
      (if sendMail m bm then Ok tt else Throw Error, [om; bm]).

(** Worked notifications. *)
Module MailExamples.

(** A transport that accepts every mail but those to [refused]. *)
Definition post (refused : jsstring) : mailer := {|
  sendMail := fun x => negb (strict_eq_str (mail_to x) refused);
  NumberToString := fun _ => js "50";
  ArrayToString := fun _ => Ok [];
  JSON_stringify := fun _ => js "{}"
|}.

Definition confirming : mail_env := {|
  OWNER_EMAIL := Some (js "owner@site.com");
  SMTP_USER := Some (js "orders@site.com");
  SEND_BUYER_CONFIRMATION := Some (js "true")
|}.

Definition silent : mail_env := {|
  OWNER_EMAIL := Some (js "owner@site.com");
  SMTP_USER := Some (js "orders@site.com");
  SEND_BUYER_CONFIRMATION := None
|}.

Definition unowned : mail_env := {|
  OWNER_EMAIL := None;
  SMTP_USER := Some (js "orders@site.com");
  SEND_BUYER_CONFIRMATION := Some (js "true")
|}.

Definition an_order : order := {|
  buyerEmail := VStr (js "a@b.com");
  websiteType := VStr (js "ai");
  amount := VNum 50;
  currency := VStr (js "EUR");
  raw := VObj []
|}.

End MailExamples.

(* ------------------------------------------------------------------ *)
(** ** The body parser in front of [rawBodySaver]                      *)
(* ------------------------------------------------------------------ *)

(** [express.raw] and [express.json] (lines 28-34) read the body of a
    request and give it to the [verify] hook; [inflate] is left at its
    default, so a compressed body is inflated first. Of the parser:
    - [takes hs body]: whether it reads the body of the request at all
      (the request has a body, of a media type the parser takes); a
      request it does not take goes on to the routes as it is;
    - [inflate v body]: the octets it makes of a body under the
      [Content-Encoding] [v], or nothing when it fails the request (an
      encoding it does not know, a corrupt stream);
    - [within_limit buf]: whether what it read is within its size
      limit; beyond it the parser fails the request.
    A request the parser fails is answered by Express and reaches no
    route. *)
Record bodyparser := {
  takes : list (jsstring * jsstring) -> buffer -> bool;
  inflate : jsstring -> buffer -> option buffer;
  within_limit : buffer -> bool
}.

(** No [Content-Encoding], or "identity" in any case: header values are
    Latin-1, where only ASCII letters lower-case to ASCII letters. *)
Definition plain (hs : list (jsstring * jsstring)) : bool :=
  match header (js "content-encoding") hs with
  | None | Some [] => true
  | Some v => list_eqb (Regex.toLowerCase v) (js "identity")
  end.

Inductive parsed :=
| Skipped
| Failed
| Read (buf : buffer).

Definition read (bp : bodyparser) (hs : list (jsstring * jsstring))
  (body : buffer) : parsed :=
  if takes bp hs body then
    match (if plain hs then Some body
           else inflate bp (str (header (js "content-encoding") hs)) body)
    with
    | Some buf => if within_limit bp buf then Read buf else Failed
    | None => Failed
    end
  else Skipped.

(** An inbound request, headers and body, as it reaches the routes, if
    it does. *)
Definition receive (bp : bodyparser) (hs : list (jsstring * jsstring))
  (body : buffer) : option request :=
  match read bp hs body with
  | Skipped => Some (capture hs None)
  | Failed => None
  | Read buf => Some (capture hs (Some buf))
  end.

Module BodyExamples.

(** The letter "a" as a zlib stream. *)
Definition deflated_a : buffer :=
  [0x78; 0x01; 0x4B; 0x04; 0x00; 0x00; 0x62; 0x00; 0x62].

(** A parser for the examples: it takes every request, inflates the
    stream above, and has the limit of 100 kB of [express.raw]. *)
Definition parser : bodyparser := {|
  takes := fun _ _ => true;
  inflate := fun v body =>
    if list_eqb (Regex.toLowerCase v) (js "deflate")
       && list_eqb body deflated_a
    then Some [0x61] else None;
  within_limit := fun buf => Z.of_nat (length buf) <=? 102400
|}.

End BodyExamples.

(* ================================================================== *)
(** * Properties                                                       *)
(* ================================================================== *)

(** ** Test vectors *)

Example test_sha256_abc :
  hex (SHA2.hash SHA2.sha256_params (UTF8.encode (js "abc")))
  = js "ba7816bf8f01cfea414140de5dae2223b00361a396177a9cb410ff61f20015ad".
Proof. vm_compute. reflexivity. Qed.

Example test_sha512_abc :
  hex (SHA2.hash SHA2.sha512_params (UTF8.encode (js "abc")))
  = js "ddaf35a193617abacc417349ae20413112e6fa4e89a97ea20a9eeee64b55d39a2192992a274fc1a836ba3c23a3feebbd454d4423643ce80e2a9ac94fa54ca49f".
Proof. vm_compute. reflexivity. Qed.

Example test_hmac_sha256_fox :
  createHmac_digest_hex sha256 (js "key")
    (js "The quick brown fox jumps over the lazy dog")
  = js "f7bc83f430538424b13298e6aa6fb143ef4d59a14946175997479dbc2d1a3cd8".
Proof. vm_compute. reflexivity. Qed.

Example test_hmac_sha512_fox :
  createHmac_digest_hex sha512 (js "key")
    (js "The quick brown fox jumps over the lazy dog")
  = js "b42af09057bac1e2d41708e48a902e09b5ff7f12ab428a4fe86653c73dd248fb82f948a549f7b791a5b41915ee4d1ec3935357e4e2317250d0372afa2ebeeb3a".
Proof. vm_compute. reflexivity. Qed.

(** Padding at the block boundaries, and a key longer than a block. *)
Example test_sha256_lengths :
  map (fun n => hex (SHA2.hash SHA2.sha256_params (repeat 97 n)))
    [55; 56; 64; 119]%nat
  = map js
      ["9f4390f8d30c2dd92ec9f095b65e2b9ae9b0a925a5258e241c9f1e910f734318";
       "b35439a4ac6f0948b6d6f9e3c6af0f5f590ce20f1bde7090ef7970686ec6738a";
       "ffe054fe7ae0cb6dc65c3af9b61d5209f439851db43d0ba5997337df154668eb";
       "31eba51c313a5c08226adf18d4a359cfdfd8d2e816b13f4af952f7ea6584dcfb"]%string.
Proof. vm_compute. reflexivity. Qed.

Example test_sha512_lengths :
  map (fun n => hex (SHA2.hash SHA2.sha512_params (repeat 97 n)))
    [111; 112; 128]%nat
  = map js
      ["fa9121c7b32b9e01733d034cfc78cbf67f926c7ed83e82200ef86818196921760b4beff48404df811b953828274461673c68d04e297b0eb7b2b4d60fc6b566a2";
       "c01d080efd492776a1c43bd23dd99d0a2e626d481e16782e75d54c2503b5dc32bd05f0f1ba33e568b88fd2d970929b719ecbb152f58f130a407c8830604b70ca";
       "b73d1929aa615934e61a871596b3f3b33359f42b8175602e89f7e06e5f658a243667807ed300314b95cacdd579f3e33abdfbe351909519a846d465c59582f321"]%string.
Proof. vm_compute. reflexivity. Qed.

Example test_hmac_long_key :
  let key := repeat 107 200 in
  let msg := concat (repeat (js "The quick brown fox jumps over the lazy dog. ") 5) in
  createHmac_digest_hex sha256 key msg
  = js "fa9e0eeb47e07336760aedb603244a2a434d58aaace6e39ff4d8412aa9501629"
  /\ createHmac_digest_hex sha512 key msg
     = js "a1a0c121ea60bc0c9ba0f97616fbb5f6caba471b29fa8d275e86128d268bd1af1885e4fe43e9edd315a622899f8d63ac302c11728cc6a15ac012950188a17bc9".
Proof. vm_compute. split; reflexivity. Qed.

(** The signatures of two of the worked requests. *)
Example test_signatures :
  sign LemonSqueezy (js "lemon-secret") Examples.order_body
  = js "83633629e1568604412087c7c0fb3281d313f3d894dccbf7a4c418dfa45e602f"
  /\ sign NOWPayments (js "ipn-secret") Examples.waiting_body
     = js "75300802e49f7c6d9f148720da66c593dd69b3de0a13c8e7f714fe914d6af828d694936adaa09916fd0f15f35bfa05ce4888c912552a14c8e47ddef4c7c057fa".
Proof. vm_compute. split; reflexivity. Qed.

(** ** Lists of numbers, ranges *)

Lemma list_eqb_eq a b : list_eqb a b = true <-> a = b.
Proof.
  revert b. induction a as [|x a IH]; intros [|y b]; simpl;
    try (split; [discriminate | discriminate]); try tauto.
  rewrite andb_true_iff, Z.eqb_eq, IH. split.
  - intros [-> ->]. reflexivity.
  - intros H. injection H as -> ->. auto.
Qed.

Lemma list_eqb_refl a : list_eqb a a = true.
Proof. apply list_eqb_eq. reflexivity. Qed.


Lemma between_spec lo x hi : between lo x hi = true <-> lo <= x <= hi.
Proof. unfold between. rewrite andb_true_iff, !Z.leb_le. tauto. Qed.

Lemma between_in lo x hi : lo <= x <= hi -> between lo x hi = true.
Proof. apply between_spec. Qed.

Lemma between_out lo x hi : x < lo \/ hi < x -> between lo x hi = false.
Proof.
  intros H. destruct (between lo x hi) eqn:E; [|reflexivity].
  apply between_spec in E. lia.
Qed.

(** ** UTF-8 *)

Lemma encode_cp_ascii c : is_ascii c -> UTF8.encode_cp c = [c].
Proof.
  intros [_ H]. unfold UTF8.encode_cp.
  destruct (Z.ltb_spec c 0x80); [reflexivity | lia].
Qed.

(** A string of ASCII characters is its own UTF-8 encoding. *)
Lemma encode_ascii s : Forall is_ascii s -> UTF8.encode s = s.
Proof.
  induction 1 as [|c s Hc _ IH]; [reflexivity|].
  cbn [UTF8.encode]. unfold UTF8.is_high, UTF8.is_low.
  rewrite !between_out by (unfold is_ascii in Hc; lia).
  rewrite encode_cp_ascii, IH by assumption. reflexivity.
Qed.

(** Settles the range tests of the goal from the bounds at hand. *)
Ltac ranges :=
  repeat match goal with
  | |- context [between ?lo ?x ?hi] =>
      first [ rewrite (between_in lo x hi) by lia
            | rewrite (between_out lo x hi) by lia ]
  | |- context [?x =? ?y] =>
      first [ rewrite (proj2 (Z.eqb_eq x y)) by lia
            | rewrite (proj2 (Z.eqb_neq x y)) by lia ]
  | |- context [?x <? ?y] =>
      first [ rewrite (proj2 (Z.ltb_lt x y)) by lia
            | rewrite (proj2 (Z.ltb_ge x y)) by lia ]
  end.

Lemma decode_one b rest :
  0 <= b <= 0x7F ->
  UTF8.decode UTF8.Lead (b :: rest) = b :: UTF8.decode UTF8.Lead rest.
Proof. intros H. cbn [UTF8.decode]. ranges. reflexivity. Qed.

Lemma decode_two b1 b2 rest :
  0xC2 <= b1 <= 0xDF -> 0x80 <= b2 <= 0xBF ->
  UTF8.decode UTF8.Lead (b1 :: b2 :: rest)
  = (b1 mod 32 * 64 + b2 mod 64) :: UTF8.decode UTF8.Lead rest.
Proof. intros H1 H2. cbn [UTF8.decode]. ranges. reflexivity. Qed.

Lemma decode_three b1 b2 b3 rest :
  0xE0 <= b1 <= 0xEF ->
  (if b1 =? 0xE0 then 0xA0 else 0x80) <= b2
    <= (if b1 =? 0xED then 0x9F else 0xBF) ->
  0x80 <= b3 <= 0xBF ->
  UTF8.decode UTF8.Lead (b1 :: b2 :: b3 :: rest)
  = ((b1 mod 16 * 64 + b2 mod 64) * 64 + b3 mod 64)
      :: UTF8.decode UTF8.Lead rest.
Proof.
  intros H1 H2 H3. cbn [UTF8.decode].
  rewrite (between_out 0 b1 0x7F), (between_out 0xC2 b1 0xDF),
    (between_in 0xE0 b1 0xEF) by lia.
  rewrite (between_in _ b2 _) by exact H2.
  rewrite (between_in _ b3 _) by lia. reflexivity.
Qed.

Lemma decode_four b1 b2 b3 b4 rest :
  0xF0 <= b1 <= 0xF4 ->
  (if b1 =? 0xF0 then 0x90 else 0x80) <= b2
    <= (if b1 =? 0xF4 then 0x8F else 0xBF) ->
  0x80 <= b3 <= 0xBF -> 0x80 <= b4 <= 0xBF ->
  UTF8.decode UTF8.Lead (b1 :: b2 :: b3 :: b4 :: rest)
  = (((b1 mod 8 * 64 + b2 mod 64) * 64 + b3 mod 64) * 64 + b4 mod 64)
      :: UTF8.decode UTF8.Lead rest.
Proof.
  intros H1 H2 H3 H4. cbn [UTF8.decode].
  rewrite (between_out 0 b1 0x7F), (between_out 0xC2 b1 0xDF),
    (between_out 0xE0 b1 0xEF), (between_in 0xF0 b1 0xF4) by lia.
  rewrite (between_in _ b2 _) by exact H2.
  rewrite (between_in _ b3 _), (between_in _ b4 _) by lia. reflexivity.
Qed.

Lemma encode_units cp s :
  UTF8.scalar cp ->
  UTF8.encode (UTF8.units cp ++ s) = UTF8.encode_cp cp ++ UTF8.encode s.
Proof.
  intros H. unfold UTF8.units, UTF8.scalar in *.
  destruct (Z.ltb_spec cp 0x10000) as [Hlt|Hge].
  - cbn [app UTF8.encode]. unfold UTF8.is_high, UTF8.is_low.
    destruct H as [H|H]; rewrite !between_out by lia; reflexivity.
  - cbn [app UTF8.encode]. unfold UTF8.is_high, UTF8.is_low.
    rewrite !between_in by (Z.to_euclidean_division_equations; lia).
    f_equal. f_equal. Z.to_euclidean_division_equations; lia.
Qed.

Lemma encode_cp_two b1 b2 :
  0xC2 <= b1 <= 0xDF -> 0x80 <= b2 <= 0xBF ->
  let cp := b1 mod 32 * 64 + b2 mod 64 in
  UTF8.scalar cp /\ UTF8.encode_cp cp = [b1; b2].
Proof.
  intros H1 H2 cp. subst cp. unfold UTF8.scalar, UTF8.encode_cp.
  split; [Z.to_euclidean_division_equations; lia|].
  rewrite (proj2 (Z.ltb_ge _ 0x80)), (proj2 (Z.ltb_lt _ 0x800))
    by (Z.to_euclidean_division_equations; lia).
  f_equal; [|f_equal]; Z.to_euclidean_division_equations; lia.
Qed.

Lemma encode_cp_three b1 b2 b3 :
  0xE0 <= b1 <= 0xEF ->
  (if b1 =? 0xE0 then 0xA0 else 0x80) <= b2
    <= (if b1 =? 0xED then 0x9F else 0xBF) ->
  0x80 <= b3 <= 0xBF ->
  let cp := (b1 mod 16 * 64 + b2 mod 64) * 64 + b3 mod 64 in
  UTF8.scalar cp /\ UTF8.encode_cp cp = [b1; b2; b3].
Proof.
  intros H1 H2 H3 cp. subst cp. unfold UTF8.scalar, UTF8.encode_cp.
  destruct (Z.eqb_spec b1 0xE0), (Z.eqb_spec b1 0xED); try lia;
  (split; [Z.to_euclidean_division_equations; lia|]);
  rewrite (proj2 (Z.ltb_ge _ 0x80)), (proj2 (Z.ltb_ge _ 0x800)),
    (proj2 (Z.ltb_lt _ 0x10000))
    by (Z.to_euclidean_division_equations; lia);
  (f_equal; [|f_equal; [|f_equal]]); Z.to_euclidean_division_equations; lia.
Qed.

Lemma encode_cp_four b1 b2 b3 b4 :
  0xF0 <= b1 <= 0xF4 ->
  (if b1 =? 0xF0 then 0x90 else 0x80) <= b2
    <= (if b1 =? 0xF4 then 0x8F else 0xBF) ->
  0x80 <= b3 <= 0xBF -> 0x80 <= b4 <= 0xBF ->
  let cp := ((b1 mod 8 * 64 + b2 mod 64) * 64 + b3 mod 64) * 64 + b4 mod 64 in
  UTF8.scalar cp /\ UTF8.encode_cp cp = [b1; b2; b3; b4].
Proof.
  intros H1 H2 H3 H4 cp. subst cp. unfold UTF8.scalar, UTF8.encode_cp.
  destruct (Z.eqb_spec b1 0xF0), (Z.eqb_spec b1 0xF4); try lia;
  (split; [Z.to_euclidean_division_equations; lia|]);
  rewrite (proj2 (Z.ltb_ge _ 0x80)), (proj2 (Z.ltb_ge _ 0x800)),
    (proj2 (Z.ltb_ge _ 0x10000))
    by (Z.to_euclidean_division_equations; lia);
  (f_equal; [|f_equal; [|f_equal; [|f_equal]]]);
  Z.to_euclidean_division_equations; lia.
Qed.

(** Decoding a well-formed sequence and encoding the string again gives
    the sequence back. *)
Lemma toString_encode bs :
  UTF8.wellformed bs -> UTF8.encode (UTF8.toString bs) = bs.
Proof.
  unfold UTF8.toString.
  induction 1 as [ | b rest Hb _ IH
                   | b1 b2 rest H1 H2 _ IH
                   | b1 b2 b3 rest H1 H2 H3 _ IH
                   | b1 b2 b3 b4 rest H1 H2 H3 H4 _ IH ].
  - reflexivity.
  - rewrite decode_one by assumption. cbn [flat_map].
    rewrite encode_units by (unfold UTF8.scalar; lia).
    rewrite encode_cp_ascii by (unfold is_ascii; lia).
    rewrite IH. reflexivity.
  - rewrite decode_two by assumption. cbn [flat_map].
    destruct (encode_cp_two _ _ H1 H2) as [Hs He].
    rewrite encode_units, He, IH by exact Hs. reflexivity.
  - rewrite decode_three by assumption. cbn [flat_map].
    destruct (encode_cp_three _ _ _ H1 H2 H3) as [Hs He].
    rewrite encode_units, He, IH by exact Hs. reflexivity.
  - rewrite decode_four by assumption. cbn [flat_map].
    destruct (encode_cp_four _ _ _ _ H1 H2 H3 H4) as [Hs He].
    rewrite encode_units, He, IH by exact Hs. reflexivity.
Qed.

(** ** Digests *)

Lemma be_bytes_length n x : length (SHA2.be_bytes n x) = n.
Proof. induction n; simpl; congruence. Qed.

Lemma be_bytes_bytes n x : Forall is_byte (SHA2.be_bytes n x).
Proof.
  induction n; simpl; constructor; [|assumption].
  unfold is_byte. apply Z.mod_pos_bound. lia.
Qed.

Lemma hash_length p msg :
  length (SHA2.hash p msg) = (8 * SHA2.wbytes p)%nat.
Proof.
  unfold SHA2.hash, SHA2.state_words. simpl.
  rewrite !length_app, !be_bytes_length. simpl. lia.
Qed.

Lemma hash_bytes p msg : Forall is_byte (SHA2.hash p msg).
Proof.
  unfold SHA2.hash, SHA2.state_words. simpl.
  repeat (apply Forall_app; split; try apply be_bytes_bytes).
  constructor.
Qed.

Lemma hexdigit_ascii d : 0 <= d < 16 -> is_ascii (hexdigit d).
Proof.
  intros H. unfold hexdigit, is_ascii.
  destruct (Z.ltb_spec d 10); lia.
Qed.

Lemma hex_length bs : length (hex bs) = (2 * length bs)%nat.
Proof. induction bs; simpl; lia. Qed.

Lemma hex_ascii bs : Forall is_byte bs -> Forall is_ascii (hex bs).
Proof.
  induction 1 as [|b bs Hb _ IH]; simpl; [constructor|].
  unfold is_byte in Hb.
  constructor; [|constructor; [|exact IH]]; apply hexdigit_ascii.
  - split; [apply Z.div_pos; lia | apply Z.div_lt_upper_bound; lia].
  - apply Z.mod_pos_bound. lia.
Qed.

Lemma digest_length a secret raw :
  length (createHmac_digest_hex a secret raw) = digest_size a.
Proof.
  unfold createHmac_digest_hex, SHA2.hmac.
  rewrite hex_length, hash_length. destruct a; reflexivity.
Qed.

Lemma digest_ascii a secret raw :
  Forall is_ascii (createHmac_digest_hex a secret raw).
Proof. apply hex_ascii, hash_bytes. Qed.

Lemma digest_buffer a secret raw :
  Buffer_from (createHmac_digest_hex a secret raw)
  = createHmac_digest_hex a secret raw.
Proof. apply encode_ascii, digest_ascii. Qed.

Lemma digest_nonempty a secret raw :
  falsy (Some (createHmac_digest_hex a secret raw)) = false.
Proof.
  pose proof (digest_length a secret raw) as H.
  destruct (createHmac_digest_hex a secret raw); [destruct a; discriminate|].
  reflexivity.
Qed.

(** ** Verification *)

Lemma verifier_eq r raw hd secret :
  verifier r raw hd secret
  = if falsy raw || falsy hd || falsy secret then Ok false
    else timingSafeEqual (Buffer_from (str hd))
           (Buffer_from (sign r (str secret) (str raw))).
Proof. destruct r; reflexivity. Qed.

Lemma timingSafeEqual_same a : timingSafeEqual a a = Ok true.
Proof.
  unfold timingSafeEqual. rewrite Nat.eqb_refl, list_eqb_refl. reflexivity.
Qed.


Lemma timingSafeEqual_throws a b :
  length a <> length b -> timingSafeEqual a b = Throw RangeError.
Proof.
  intros H. unfold timingSafeEqual.
  destruct (Nat.eqb_spec (length a) (length b)); [contradiction|reflexivity].
Qed.

Lemma falsy_nonempty s : s <> [] -> falsy (Some s) = false.
Proof. destruct s; [contradiction|reflexivity]. Qed.

(** A present, non-empty body, header and secret: the verifier compares
    the header to the digest. *)
Lemma verifier_compare r raw hd secret :
  raw <> [] -> hd <> [] -> secret <> [] ->
  verifier r (Some raw) (Some hd) (Some secret)
  = timingSafeEqual (Buffer_from hd) (sign r secret raw).
Proof.
  intros Hr Hh Hs. rewrite verifier_eq.
  rewrite !falsy_nonempty by assumption. simpl.
  unfold sign. rewrite digest_buffer. reflexivity.
Qed.

(** ** The handlers, by the outcome of the verification *)

Lemma webhook_rejected r pf e req :
  verification r e req = Ok false ->
  webhook r pf e req = (invalid_signature r, []).
Proof.
  unfold verification. destruct r; simpl; intros H;
    unfold lemonsqueezy, nowpayments, try_catch, lemon_try, now_try, bind, lift;
    rewrite H; reflexivity.
Qed.

Lemma webhook_verifier_throws r pf e req x :
  verification r e req = Throw x ->
  webhook r pf e req = (server_error, []).
Proof.
  unfold verification. destruct r; simpl; intros H;
    unfold lemonsqueezy, nowpayments, try_catch, lemon_try, now_try, bind, lift;
    rewrite H; reflexivity.
Qed.

(** A verified request has a body, and that body is what is parsed. *)
Lemma verification_body r e req :
  verification r e req = Ok true -> falsy (rawBody req) = false.
Proof.
  unfold verification. rewrite verifier_eq.
  destruct (falsy (rawBody req)); [discriminate|reflexivity].
Qed.

Lemma webhook_unparsable r pf e req :
  verification r e req = Ok true ->
  JSON_parse pf (str (rawBody req)) = None ->
  webhook r pf e req = (server_error, []).
Proof.
  intros Hv Hp. pose proof (verification_body _ _ _ Hv) as Hb.
  unfold verification in Hv. destruct r; simpl in *;
    unfold lemonsqueezy, nowpayments, try_catch, lemon_try, now_try, bind, lift,
      parse; rewrite Hv, Hb; simpl; rewrite Hp; reflexivity.
Qed.

Lemma webhook_other_event r pf e req evt :
  verification r e req = Ok true ->
  JSON_parse pf (str (rawBody req)) = Some evt ->
  success r evt = false ->
  webhook r pf e req = (ok_response, []).
Proof.
  intros Hv Hp Hs. pose proof (verification_body _ _ _ Hv) as Hb.
  unfold verification in Hv. destruct r; simpl in *;
    unfold lemonsqueezy, nowpayments, try_catch, lemon_try, now_try, bind, lift,
      parse; rewrite Hv, Hb; simpl; rewrite Hp; simpl; rewrite Hs;
    reflexivity.
Qed.

Lemma webhook_extract_throws r pf e req evt x :
  verification r e req = Ok true ->
  JSON_parse pf (str (rawBody req)) = Some evt ->
  success r evt = true ->
  extract r pf evt = Throw x ->
  webhook r pf e req = (server_error, []).
Proof.
  intros Hv Hp Hs Hx. pose proof (verification_body _ _ _ Hv) as Hb.
  unfold verification in Hv. destruct r; simpl in *;
    unfold lemonsqueezy, nowpayments, try_catch, lemon_try, now_try, bind, lift,
      parse; rewrite Hv, Hb; simpl; rewrite Hp; simpl; rewrite Hs, Hx;
    reflexivity.
Qed.

Lemma webhook_notifies r pf e req evt o :
  verification r e req = Ok true ->
  JSON_parse pf (str (rawBody req)) = Some evt ->
  success r evt = true ->
  extract r pf evt = Ok o ->
  webhook r pf e req
  = (if notifyOrder pf o then ok_response else server_error, [o]).
Proof.
  intros Hv Hp Hs Hx. pose proof (verification_body _ _ _ Hv) as Hb.
  unfold verification in Hv. destruct r; simpl in *;
    unfold lemonsqueezy, nowpayments, try_catch, lemon_try, now_try, bind, lift,
      parse, await_notifyOrder; rewrite Hv, Hb; simpl; rewrite Hp; simpl;
    rewrite Hs, Hx; destruct (notifyOrder pf o); reflexivity.
Qed.

(** Either the verification of a request returns [true], or the request
    is answered with 400 or 500 and nothing is notified. *)
Lemma webhook_unverified r pf e req :
  verification r e req <> Ok true ->
  snd (webhook r pf e req) = []
  /\ (fst (webhook r pf e req) = invalid_signature r
      \/ fst (webhook r pf e req) = server_error).
Proof.
  intros H. destruct (verification r e req) as [[|]|x] eqn:Hv.
  - contradiction.
  - rewrite (webhook_rejected r pf e req Hv). auto.
  - rewrite (webhook_verifier_throws r pf e req x Hv). auto.
Qed.

(** A header whose UTF-8 length is not that of the digest makes the
    comparison throw. *)
Lemma verifier_wrong_length r raw hd secret :
  raw <> [] -> hd <> [] -> secret <> [] ->
  length (Buffer_from hd) <> digest_size (algorithm_of r) ->
  verifier r (Some raw) (Some hd) (Some secret) = Throw RangeError.
Proof.
  intros Hr Hh Hs Hl. rewrite verifier_compare by assumption.
  apply timingSafeEqual_throws. unfold sign. rewrite digest_length.
  exact Hl.
Qed.

(** ** Rejected requests, and who may notify *)

(** C1. A request whose signature does not verify is to be answered
    with 400 and no notification. The handlers do so when the verifier
    returns [false]; a header that is not as long as the digest makes
    [timingSafeEqual] throw, and the request is answered with 500
    "server error". Here: body [{}], header [x-signature: abc], on
    either route with its secret set. Nothing is notified. *)
Theorem C1_wrong_length_header_answers_500 :
  forall (r : route) (pf : platform),
    webhook r pf Examples.secrets
      (capture [(sig_header r, js "abc")]
         (Some (UTF8.encode Examples.empty_body)))
    = (server_error, []).
Proof.
  intros r pf. apply webhook_verifier_throws with (x := RangeError).
  unfold verification. destruct r; vm_compute; reflexivity.
Qed.

(** C4. A notification is built only from a request that passed the
    verification of its own route: whenever a handler calls
    [notifyOrder], the verifier of that route (SHA-256 under
    LEMONSQUEEZY_SIGNING_SECRET on the LemonSqueezy route, SHA-512 under
    NOWPAYMENTS_IPN_SECRET on the NOWPayments route) returned [true] on
    the raw body of that request, whose signature header then holds the
    keyed digest of that body under that secret. *)
Theorem C4_notification_only_after_own_verification :
  forall (r : route) (pf : platform) (e : env) (req : request) (o : order),
    In o (snd (webhook r pf e req)) ->
    verifier r (rawBody req) (header (sig_header r) (headers req))
      (secret_of r e) = Ok true
    /\ exists raw hd secret,
         rawBody req = Some raw
         /\ header (sig_header r) (headers req) = Some hd
         /\ secret_of r e = Some secret
         /\ Buffer_from hd = createHmac_digest_hex (algorithm_of r) secret raw.
Proof.
  intros r pf e req o Hin.
  assert (Hv : verification r e req = Ok true).
  { destruct (verification r e req) as [[|]|x] eqn:Hv; [reflexivity| |].
    - rewrite (webhook_rejected r pf e req Hv) in Hin. destruct Hin.
    - rewrite (webhook_verifier_throws r pf e req x Hv) in Hin.
      destruct Hin. }
  split; [exact Hv|].
  unfold verification in Hv. rewrite verifier_eq in Hv.
  destruct (rawBody req) as [[|c raw]|]; try discriminate.
  destruct (header (sig_header r) (headers req)) as [[|h hd]|];
    try discriminate.
  destruct (secret_of r e) as [[|s secret]|]; try discriminate.
  exists (c :: raw), (h :: hd), (s :: secret). repeat split.
  cbn [falsy orb str] in Hv. unfold sign in Hv.
  rewrite digest_buffer in Hv. unfold timingSafeEqual in Hv.
  destruct (Nat.eqb _ _); [|discriminate].
  destruct (list_eqb _ _) eqn:Heq; [|discriminate].
  apply list_eqb_eq in Heq. exact Heq.
Qed.

(** C4 at the order of the specification, signed by LemonSqueezy. *)
Lemma C4_witness :
  let req := Examples.signed LemonSqueezy (js "lemon-secret")
               Examples.order_body in
  exists o,
    In o (snd (webhook LemonSqueezy Examples.node Examples.secrets req))
    /\ verifier LemonSqueezy (rawBody req)
         (header (sig_header LemonSqueezy) (headers req))
         (secret_of LemonSqueezy Examples.secrets) = Ok true.
Proof.
  intros req.
  assert (Hin : exists o,
    In o (snd (webhook LemonSqueezy Examples.node Examples.secrets req))).
  { vm_compute. eexists. left. reflexivity. }
  destruct Hin as [o Hin]. exists o. split; [exact Hin|].
  exact (proj1 (C4_notification_only_after_own_verification
                  LemonSqueezy Examples.node Examples.secrets req o Hin)).
Defined.

(** C9. Whatever the header and the body, a verifier rejects when the
    secret of its provider is unset or the empty string, and the
    request is answered with 400 and nothing is notified: verification
    is never skipped. *)
Theorem C9_unset_or_empty_secret_rejects :
  forall (r : route) (raw hd secret : option jsstring),
    secret = None \/ secret = Some [] ->
    verifier r raw hd secret = Ok false
    /\ forall (pf : platform) (e : env) (req : request),
         secret_of r e = secret ->
         webhook r pf e req = (invalid_signature r, []).
Proof.
  intros r raw hd secret Hs.
  assert (Hf : falsy secret = true) by (destruct Hs; subst; reflexivity).
  split.
  - rewrite verifier_eq, Hf, !orb_true_r. reflexivity.
  - intros pf e req He. apply webhook_rejected. unfold verification.
    rewrite verifier_eq, He, Hf, !orb_true_r. reflexivity.
Qed.

(** C9 at a correctly shaped request when no secret is configured. *)
Lemma C9_witness :
  let e := {| LEMONSQUEEZY_SIGNING_SECRET := None;
              NOWPAYMENTS_IPN_SECRET := Some [] |} in
  verifyLemonSignature (Some Examples.order_body)
    (Some (sign LemonSqueezy [] Examples.order_body)) None = Ok false
  /\ webhook NOWPayments Examples.node e
       (Examples.signed NOWPayments [] Examples.finished_body)
     = (invalid_signature NOWPayments, []).
Proof.
  intros e. split.
  - exact (proj1 (C9_unset_or_empty_secret_rejects LemonSqueezy
                    (Some Examples.order_body)
                    (Some (sign LemonSqueezy [] Examples.order_body))
                    None (or_introl eq_refl))).
  - exact (proj2 (C9_unset_or_empty_secret_rejects NOWPayments
                    None None (Some []) (or_intror eq_refl))
             Examples.node e
             (Examples.signed NOWPayments [] Examples.finished_body)
             eq_refl).
Defined.

(** C10. A request with an empty body is answered with 400 on both
    routes, whatever its headers, also when the signature header is the
    keyed digest of the empty string under the configured secret:
    [rawBodySaver] records a body only when it has octets, and the
    verifiers reject a missing raw body. *)
Theorem C10_empty_body_rejected :
  forall (r : route) (pf : platform) (e : env)
         (hs : list (jsstring * jsstring)),
    rawBody (capture hs (Some [])) = None
    /\ (forall hd secret,
          verifier r None hd secret = Ok false
          /\ verifier r (Some []) hd secret = Ok false)
    /\ webhook r pf e (capture hs (Some [])) = (invalid_signature r, [])
    /\ forall secret,
         webhook r pf e (capture [(sig_header r, sign r secret [])] (Some []))
         = (invalid_signature r, []).
Proof.
  intros r pf e hs.
  assert (H : forall hs', webhook r pf e (capture hs' (Some []))
                          = (invalid_signature r, [])).
  { intros hs'. apply webhook_rejected. unfold verification.
    rewrite verifier_eq. reflexivity. }
  split; [reflexivity|].
  split; [intros hd secret; rewrite !verifier_eq; split; reflexivity|].
  split; [apply H|]. intros secret. apply H.
Qed.

(** ** The octets under the digest *)

(** The buffer given to [rawBodySaver], when it is well-formed UTF-8,
    is what the digest is computed over: decoding it into [req.rawBody]
    and encoding that for [hmac.update] changes nothing. *)
Lemma capture_wellformed hs buf :
  UTF8.wellformed buf -> digest_input (capture hs (Some buf)) = buf.
Proof.
  intros Hwf. destruct buf as [|b bs]; [reflexivity|].
  unfold digest_input, capture, rawBodySaver. cbn [rawBody str].
  apply toString_encode, Hwf.
Qed.

Lemma read_plain bp hs body :
  plain hs = true ->
  read bp hs body
  = if takes bp hs body
    then (if within_limit bp body then Read body else Failed)
    else Skipped.
Proof. intros H. unfold read. rewrite H. reflexivity. Qed.

(** A plain request that reaches the routes with a raw body is one
    whose body the parser read as it came. *)
Lemma receive_plain bp hs body req raw :
  plain hs = true ->
  receive bp hs body = Some req -> rawBody req = Some raw ->
  req = capture hs (Some body).
Proof.
  intros Hp Hr Hraw. unfold receive in Hr. rewrite (read_plain _ _ _ Hp) in Hr.
  destruct (takes bp hs body).
  - destruct (within_limit bp body); [|discriminate].
    injection Hr as <-. reflexivity.
  - injection Hr as <-. discriminate.
Qed.

(** A plain request the parser takes, within its limit, reaches the
    routes with a raw body as soon as it has one octet. *)
Lemma receive_plain_read bp hs body :
  plain hs = true ->
  takes bp hs body = true -> within_limit bp body = true -> body <> [] ->
  receive bp hs body = Some (capture hs (Some body))
  /\ rawBody (capture hs (Some body)) = Some (UTF8.toString body).
Proof.
  intros Hp Ht Hl Hne. unfold receive.
  rewrite (read_plain _ _ _ Hp), Ht, Hl. split; [reflexivity|].
  destruct body; [contradiction|reflexivity].
Qed.

Ltac wellformed_utf8 :=
  repeat first
    [ apply UTF8.wf_end
    | apply UTF8.wf_one; [lia|]
    | apply UTF8.wf_two; [lia|lia|]
    | apply UTF8.wf_three; [lia|simpl; lia|lia|]
    | apply UTF8.wf_four; [lia|simpl; lia|lia|lia|] ].

(** C2, as stated, fails, in two ways. An octet that is not UTF-8 is
    replaced by U+FFFD when the body is made a string, and the digest is
    computed over the three octets of U+FFFD. And a body sent under
    [Content-Encoding: deflate] is inflated before it is captured: the
    nine octets below, well-formed UTF-8 as they are, reach the digest
    as the single octet of "a". *)
Lemma C2_counterexample :
  (exists req,
     receive BodyExamples.parser [] [0xFF] = Some req
     /\ rawBody req = Some [0xFFFD]
     /\ digest_input req = [0xEF; 0xBF; 0xBD]
     /\ digest_input req <> [0xFF])
  /\ (exists req,
        receive BodyExamples.parser
          [(js "content-encoding", js "deflate")] BodyExamples.deflated_a
        = Some req
        /\ UTF8.wellformed BodyExamples.deflated_a
        /\ rawBody req = Some (js "a")
        /\ digest_input req = [0x61]
        /\ digest_input req <> BodyExamples.deflated_a).
Proof.
  split.
  - eexists. split; [reflexivity|]. repeat split. discriminate.
  - eexists. split; [reflexivity|].
    split; [unfold BodyExamples.deflated_a; wellformed_utf8|].
    repeat split. discriminate.
Qed.

(** C2, amended. For every inbound request on a webhook route that has
    no [Content-Encoding] (or "identity") and whose body is well-formed
    UTF-8, the raw body captured for the signature is the inbound body,
    octet for octet: what [hmac.update] is given is the body itself, and
    the digest a verifier compares is the keyed digest of the octets the
    provider signed. *)
Theorem C2_plain_wellformed_body_digested_verbatim :
  forall (bp : bodyparser) (hs : list (jsstring * jsstring)) (body : buffer)
         (req : request) (raw : jsstring),
    plain hs = true ->
    UTF8.wellformed body ->
    receive bp hs body = Some req ->
    rawBody req = Some raw ->
    UTF8.encode raw = body
    /\ digest_input req = body
    /\ forall (r : route) (secret : jsstring),
         sign r secret raw
         = hex (SHA2.hmac (params_of (algorithm_of r))
                  (UTF8.encode secret) body).
Proof.
  intros bp hs body req raw Hp Hwf Hr Hraw.
  pose proof (receive_plain bp hs body req raw Hp Hr Hraw) as ->.
  pose proof (capture_wellformed hs body Hwf) as H.
  unfold digest_input in *. rewrite Hraw in H. cbn [str] in H.
  split; [exact H|]. split; [rewrite Hraw; exact H|]. intros r secret.
  unfold sign, createHmac_digest_hex. rewrite H. reflexivity.
Qed.

(** C2 at a body with characters of one to four octets. *)
Lemma C2_witness :
  exists req raw,
    plain [] = true
    /\ UTF8.wellformed Examples.utf8_body
    /\ receive BodyExamples.parser [] Examples.utf8_body = Some req
    /\ rawBody req = Some raw
    /\ UTF8.encode raw = Examples.utf8_body.
Proof.
  assert (Hwf : UTF8.wellformed Examples.utf8_body)
    by (unfold Examples.utf8_body; wellformed_utf8).
  eexists. eexists. split; [reflexivity|]. split; [exact Hwf|].
  split; [reflexivity|]. split; [reflexivity|].
  exact (proj1 (C2_plain_wellformed_body_digested_verbatim
                  BodyExamples.parser [] Examples.utf8_body _ _
                  eq_refl Hwf eq_refl eq_refl)).
Defined.

(** ** Signing, verifying, and one bit of the header *)






(** ** The pattern [type=<word>] *)

Lemma char_ci_lower p c :
  Regex.char_ci p c = true -> Regex.lower c = Regex.lower p.
Proof.
  unfold Regex.char_ci, Regex.upper, Regex.lower.
  rewrite orb_true_iff, !Z.eqb_eq. intros [->| ->]; [reflexivity|].
  destruct (between 97 p 122) eqn:E; [|reflexivity].
  apply between_spec in E.
  rewrite (between_in 65 (p - 32) 90), (between_out 65 p 90) by lia. lia.
Qed.

Lemma lower_char_ci p c : Regex.lower c = p -> Regex.char_ci p c = true.
Proof.
  unfold Regex.char_ci, Regex.upper, Regex.lower. intros <-.
  rewrite orb_true_iff, !Z.eqb_eq.
  destruct (between 65 c 90) eqn:E; [|left; reflexivity].
  apply between_spec in E. rewrite between_in by lia. right. lia.
Qed.

Lemma prefix_ci_sound pat s r :
  Regex.prefix_ci pat s = Some r ->
  exists ty, s = ty ++ r /\ Regex.toLowerCase ty = Regex.toLowerCase pat.
Proof.
  revert s. induction pat as [|p pat IH]; intros s H.
  - injection H as <-. exists []. split; reflexivity.
  - destruct s as [|c s]; [discriminate|]. cbn [Regex.prefix_ci] in H.
    destruct (Regex.char_ci p c) eqn:E; [|discriminate].
    destruct (IH s H) as (ty & -> & Hty).
    exists (c :: ty). split; [reflexivity|].
    cbn [Regex.toLowerCase map]. fold (Regex.toLowerCase ty).
    fold (Regex.toLowerCase pat).
    rewrite (char_ci_lower p c E), Hty. reflexivity.
Qed.

Lemma prefix_ci_complete pat ty r :
  Regex.toLowerCase ty = pat -> Regex.prefix_ci pat (ty ++ r) = Some r.
Proof.
  revert pat. induction ty as [|c ty IH]; intros pat H.
  - subst pat. reflexivity.
  - destruct pat as [|p pat]; [discriminate|].
    cbn [Regex.toLowerCase map] in H. injection H as Hc Hty.
    cbn [app Regex.prefix_ci]. rewrite (lower_char_ci p c Hc).
    apply IH. exact Hty.
Qed.

Lemma take_word_spec s :
  exists rest,
    s = Regex.take_word s ++ rest
    /\ forallb Regex.word_char (Regex.take_word s) = true
    /\ match rest with
       | c :: _ => Regex.word_char c = false
       | [] => True
       end.
Proof.
  induction s as [|c s (rest & Hs & Hw & Hr)].
  - exists []. repeat split.
  - cbn [Regex.take_word]. destruct (Regex.word_char c) eqn:E.
    + exists rest. cbn [app forallb]. rewrite E, Hw, <- Hs. repeat split.
      exact Hr.
    + exists (c :: s). repeat split. exact E.
Qed.

Lemma match_here_sound s w :
  Regex.match_here s = Some w ->
  exists ty rest, type_token s [] ty w rest.
Proof.
  unfold Regex.match_here. intros H.
  destruct (Regex.prefix_ci (js "type=") s) as [r|] eqn:Hp; [|discriminate].
  destruct (prefix_ci_sound _ _ _ Hp) as (ty & -> & Hty).
  destruct (take_word_spec r) as (rest & Hr & Hw & Hrest).
  destruct (Regex.take_word r) as [|c w'] eqn:Ht; [discriminate|].
  injection H as <-. exists ty, rest. unfold type_token.
  split; [cbn [app]; f_equal; exact Hr|].
  split; [exact Hty|]. split; [discriminate|]. split; assumption.
Qed.

Lemma match_type_eq d :
  Regex.match_type d
  = match Regex.match_here d with
    | Some w => Some w
    | None => match d with
              | [] => None
              | _ :: d' => Regex.match_type d'
              end
    end.
Proof. destruct d; reflexivity. Qed.

(** What [match] returns is the word of a [type=<word>] token. *)
Lemma match_type_sound d w :
  Regex.match_type d = Some w ->
  exists pre ty rest, type_token d pre ty w rest.
Proof.
  induction d as [|c d IH]; cbn [Regex.match_type];
    destruct (Regex.match_here _) as [w'|] eqn:Hh.
  - intros H. injection H as ->.
    destruct (match_here_sound _ _ Hh) as (ty & rest & Ht). eauto.
  - discriminate.
  - intros H. injection H as ->.
    destruct (match_here_sound _ _ Hh) as (ty & rest & Ht). eauto.
  - intros H. destruct (IH H) as (pre & ty & rest & -> & Ht).
    exists (c :: pre), ty, rest. split; [reflexivity | exact Ht].
Qed.

(** [match] returns [null] only when there is no such token. *)
Lemma match_type_none d :
  Regex.match_type d = None -> no_type_token d.
Proof.
  unfold no_type_token. intros H pre. revert d H.
  induction pre as [|x pre IH]; intros d H ty c rest -> Hty.
  - assert (Hh : Regex.match_here (ty ++ c :: rest) = None).
    { rewrite match_type_eq in H.
      destruct (Regex.match_here _); [discriminate|reflexivity]. }
    unfold Regex.match_here in Hh.
    rewrite (prefix_ci_complete (js "type=") ty (c :: rest) Hty) in Hh.
    cbn [Regex.take_word] in Hh.
    destruct (Regex.word_char c); [discriminate|reflexivity].
  - rewrite match_type_eq in H. cbn [app] in H.
    destruct (Regex.match_here _); [discriminate|].
    exact (IH _ H ty c rest eq_refl Hty).
Qed.

Lemma no_token_no_match d :
  no_type_token d -> Regex.match_type d = None.
Proof.
  intros Hno. destruct (Regex.match_type d) as [w|] eqn:H; [|reflexivity].
  destruct (match_type_sound d w H) as (pre & ty & rest & Hd & Hty & Hw & Hall & _).
  destruct w as [|c w]; [contradiction|].
  cbn [forallb] in Hall. apply andb_true_iff in Hall as [Hc _].
  rewrite (Hno pre ty c (w ++ rest) Hd Hty) in Hc. discriminate.
Qed.

(** ** Classification and extraction *)

Lemma optProp_string evt k d :
  optProp evt k = VStr d -> getProp evt k = Ok (VStr d).
Proof.
  unfold optProp. destruct (getProp evt k); [intros ->; reflexivity|].
  discriminate.
Qed.

(** The website type of a NOWPayments event. *)
Lemma now_websiteType_eq evt :
  now_websiteType evt
  = Ok (match optProp evt (js "order_description") with
        | VStr d => match Regex.match_type d with
                    | Some w => VStr (Regex.toLowerCase w)
                    | None => VStr (js "unknown")
                    end
        | _ => VStr (js "unknown")
        end).
Proof.
  unfold now_websiteType.
  destruct (optProp evt (js "order_description")) eqn:E; try reflexivity.
  cbn [is_string]. rewrite (optProp_string _ _ _ E).
  destruct (Regex.match_type s); reflexivity.
Qed.

(** The NOWPayments extraction always returns an order. *)
Lemma now_extract_total evt :
  exists t,
    now_websiteType evt = Ok t
    /\ now_extract evt
       = Ok {| buyerEmail := or_ (optProp evt (js "customer_email")) VNull;
               websiteType := t;
               amount := optProp evt (js "price_amount");
               currency := or_ (optProp evt (js "price_currency"))
                             (VStr (js "USD"));
               raw := evt |}.
Proof.
  unfold now_extract. rewrite now_websiteType_eq.
  eexists. split; reflexivity.
Qed.

Lemma ToNumber_primitive pf v :
  primitive v -> exists x, ToNumber pf v = Ok x.
Proof. destruct v; simpl; try contradiction; eauto. Qed.

(** The LemonSqueezy extraction returns an order when the total can be
    made a number, and throws what that coercion throws. *)
Lemma lemon_extract_eq pf evt :
  lemon_extract pf evt
  = match ToNumber pf (coalesce (lemon_total evt) (VNum zero)) with
    | Throw x => Throw x
    | Ok x =>
        let attributes := lemon_attributes evt in
        Ok {| buyerEmail :=
                or_ (or_ (optProp attributes (js "user_email"))
                         (optProp attributes (js "customer_email"))) VNull;
              websiteType :=
                or_ (or_ (optProp (optProp attributes (js "custom"))
                            (js "websiteType"))
                         (optProp (optProp (optProp evt (js "meta"))
                                     (js "custom_data")) (js "websiteType")))
                    (VStr (js "unknown"));
              amount := VNum (x / hundred)%float;
              currency := or_ (optProp attributes (js "currency"))
                            (VStr (js "USD"));
              raw := evt |}
    end.
Proof.
  unfold lemon_extract, js_div.
  destruct (ToNumber pf (coalesce (lemon_total evt) (VNum zero)));
    reflexivity.
Qed.

Lemma lemon_extract_primitive pf evt :
  primitive (lemon_total evt) -> exists o, lemon_extract pf evt = Ok o.
Proof.
  intros H. rewrite lemon_extract_eq.
  assert (Hp : primitive (coalesce (lemon_total evt) (VNum zero)))
    by (destruct (lemon_total evt); simpl; auto).
  destruct (ToNumber_primitive pf _ Hp) as [x ->]. eauto.
Qed.

Lemma lemon_success_spec type :
  lemon_success type = true
  <-> type = VStr (js "order_created")
      \/ type = VStr (js "subscription_payment_success").
Proof.
  unfold lemon_success, strict_eq_str. rewrite orb_true_iff.
  destruct type; try (split; [intros [H|H]; discriminate
                             | intros [H|H]; discriminate]).
  rewrite !list_eqb_eq. split; (intros [H|H]; [left|right]); congruence.
Qed.

Lemma now_success_spec evt :
  now_success evt = true
  <-> optProp evt (js "payment_status") = VStr (js "finished").
Proof.
  unfold now_success, strict_eq_str.
  destruct (optProp evt (js "payment_status"));
    try (split; discriminate).
  rewrite list_eqb_eq. split; congruence.
Qed.

(** C5, as stated, fails: a verified LemonSqueezy event named
    [order_created] whose total is an object hiding [toString] makes
    the division throw; the request is answered with 500 and nothing is
    notified. *)
Lemma C5_counterexample :
  let req := Examples.signed LemonSqueezy (js "lemon-secret")
               Examples.odd_total_body in
  verification LemonSqueezy Examples.secrets req = Ok true
  /\ JSON_parse Examples.node (str (rawBody req))
     = Some Examples.odd_total_event
  /\ lemon_event_name Examples.odd_total_event = VStr (js "order_created")
  /\ webhook LemonSqueezy Examples.node Examples.secrets req
     = (server_error, []).
Proof. vm_compute. repeat split. Qed.

(** C5, amended. For every verified request whose body parses: an
    event that is a successful payment (LemonSqueezy: the classified
    name is "order_created" or "subscription_payment_success";
    NOWPayments: [payment_status] is "finished") triggers exactly one
    notification attempt, with the extracted order, whenever the order
    can be extracted, which is always so on the NOWPayments route and,
    on the LemonSqueezy route, whenever the total is no array and no
    object; the answer is 200 when the notification resolves and 500
    when it rejects. When the extraction throws the request is answered
    with 500 and nothing is notified. Every other event triggers no
    notification attempt and is answered with 200. *)
Theorem C5_success_events_notify_once :
  forall (r : route) (pf : platform) (e : env) (req : request) (evt : value),
    verifier r (rawBody req) (header (sig_header r) (headers req))
      (secret_of r e) = Ok true ->
    JSON_parse pf (str (rawBody req)) = Some evt ->
    (success r evt = true ->
       (forall o, extract r pf evt = Ok o ->
          webhook r pf e req
          = (if notifyOrder pf o then ok_response else server_error, [o]))
       /\ (forall x, extract r pf evt = Throw x ->
             webhook r pf e req = (server_error, []))
       /\ (r = NOWPayments \/ primitive (lemon_total evt) ->
             exists o, extract r pf evt = Ok o))
    /\ (success r evt = false -> webhook r pf e req = (ok_response, []))
    /\ (success LemonSqueezy evt = true
        <-> lemon_event_name evt = VStr (js "order_created")
            \/ lemon_event_name evt = VStr (js "subscription_payment_success"))
    /\ (success NOWPayments evt = true
        <-> optProp evt (js "payment_status") = VStr (js "finished")).
Proof.
  intros r pf e req evt Hv Hp. split; [|split; [|split]].
  - intros Hs. split; [|split].
    + intros o Ho. exact (webhook_notifies r pf e req evt o Hv Hp Hs Ho).
    + intros x Hx. exact (webhook_extract_throws r pf e req evt x Hv Hp Hs Hx).
    + intros [-> | Hprim]; [|destruct r].
      * destruct (now_extract_total evt) as (t & _ & H). simpl. eauto.
      * exact (lemon_extract_primitive pf evt Hprim).
      * destruct (now_extract_total evt) as (t & _ & H). simpl. eauto.
  - intros Hs. exact (webhook_other_event r pf e req evt Hv Hp Hs).
  - apply lemon_success_spec.
  - apply now_success_spec.
Qed.

(** C5 at the order of the specification: one notification, amount 50,
    currency EUR, buyer a@b.com, answered with 200. *)
Lemma C5_witness :
  let req := Examples.signed LemonSqueezy (js "lemon-secret")
               Examples.order_body in
  webhook LemonSqueezy Examples.node Examples.secrets req
  = (ok_response,
     [ {| buyerEmail := Examples.text "a@b.com";
          websiteType := Examples.text "unknown";
          amount := VNum 50;
          currency := Examples.text "EUR";
          raw := Examples.order_event |} ]).
Proof.
  intros req.
  assert (Hv : verifier LemonSqueezy (rawBody req)
                 (header (sig_header LemonSqueezy) (headers req))
                 (secret_of LemonSqueezy Examples.secrets) = Ok true)
    by (vm_compute; reflexivity).
  assert (Hp : JSON_parse Examples.node (str (rawBody req))
               = Some Examples.order_event) by (vm_compute; reflexivity).
  destruct (C5_success_events_notify_once LemonSqueezy Examples.node
              Examples.secrets req Examples.order_event Hv Hp) as (Hs & _).
  destruct (Hs eq_refl) as (Hone & _).
  exact (Hone _ eq_refl).
Defined.

Lemma or_absent a b : absent a -> or_ a b = b.
Proof. unfold absent. intros ->. reflexivity. Qed.

Lemma lemon_websiteType_default pf evt o :
  lemon_extract pf evt = Ok o ->
  absent (optProp (optProp (lemon_attributes evt) (js "custom"))
            (js "websiteType")) ->
  absent (optProp (optProp (optProp evt (js "meta")) (js "custom_data"))
            (js "websiteType")) ->
  websiteType o = VStr (js "unknown").
Proof.
  intros Ho H1 H2. rewrite lemon_extract_eq in Ho.
  destruct (ToNumber pf (coalesce (lemon_total evt) (VNum zero)));
    [|discriminate].
  injection Ho as <-. cbn [websiteType].
  rewrite (or_absent _ _ H1), (or_absent _ _ H2). reflexivity.
Qed.

(** C6, as stated, fails: a NOWPayments event without [price_amount]
    yields no default amount, the amount is [undefined]. *)
Lemma C6_counterexample :
  absent (optProp Examples.bare_finished_event (js "price_amount"))
  /\ now_extract Examples.bare_finished_event
     = Ok {| buyerEmail := VNull;
             websiteType := Examples.text "unknown";
             amount := VUndefined;
             currency := Examples.text "USD";
             raw := Examples.bare_finished_event |}.
Proof. split; reflexivity. Qed.

(** C6, amended. Extraction does not throw on missing fields: the
    NOWPayments extraction returns an order for every parsed event, the
    LemonSqueezy extraction for every parsed event whose total is
    absent or no array and no object. An absent field resolves to its
    default: the buyer email to [null], the currency to "USD", the
    website type to "unknown", the LemonSqueezy amount to 0. The
    NOWPayments amount has no default: it is [undefined] when
    [price_amount] is absent. *)
Theorem C6_extraction_defaults :
  forall (pf : platform) (evt : value),
    (exists o, now_extract evt = Ok o)
    /\ (primitive (lemon_total evt) -> exists o, lemon_extract pf evt = Ok o)
    /\ (forall o, lemon_extract pf evt = Ok o ->
          let attributes := lemon_attributes evt in
          (absent (optProp attributes (js "user_email")) ->
           absent (optProp attributes (js "customer_email")) ->
           buyerEmail o = VNull)
          /\ (absent (optProp attributes (js "currency")) ->
              currency o = VStr (js "USD"))
          /\ (absent (optProp attributes (js "total")) ->
              amount o = VNum zero)
          /\ (absent (optProp (optProp attributes (js "custom"))
                        (js "websiteType")) ->
              absent (optProp (optProp (optProp evt (js "meta"))
                                 (js "custom_data")) (js "websiteType")) ->
              websiteType o = VStr (js "unknown")))
    /\ (forall o, now_extract evt = Ok o ->
          (absent (optProp evt (js "customer_email")) ->
           buyerEmail o = VNull)
          /\ (absent (optProp evt (js "price_currency")) ->
              currency o = VStr (js "USD"))
          /\ (absent (optProp evt (js "order_description")) ->
              websiteType o = VStr (js "unknown"))
          /\ (absent (optProp evt (js "price_amount")) ->
              amount o = VUndefined)).
Proof.
  intros pf evt. split; [|split; [|split]].
  - destruct (now_extract_total evt) as (t & _ & H). eauto.
  - apply lemon_extract_primitive.
  - intros o Ho attributes. rewrite lemon_extract_eq in Ho.
    destruct (ToNumber pf (coalesce (lemon_total evt) (VNum zero)))
      as [x|x] eqn:Hx; [|discriminate].
    injection Ho as <-. cbn [buyerEmail currency amount websiteType].
    fold attributes. repeat split.
    + intros H1 H2. rewrite (or_absent _ _ H1), (or_absent _ _ H2).
      reflexivity.
    + intros H. rewrite (or_absent _ _ H). reflexivity.
    + intros H. unfold lemon_total in Hx. fold attributes in Hx.
      unfold absent in H. rewrite H in Hx. injection Hx as <-.
      reflexivity.
    + intros H1 H2. rewrite (or_absent _ _ H1), (or_absent _ _ H2).
      reflexivity.
  - intros o Ho. destruct (now_extract_total evt) as (t & Ht & H).
    rewrite H in Ho. injection Ho as <-.
    cbn [buyerEmail currency amount websiteType]. repeat split.
    + intros H1. rewrite (or_absent _ _ H1). reflexivity.
    + intros H1. rewrite (or_absent _ _ H1). reflexivity.
    + intros H1. rewrite now_websiteType_eq in Ht. unfold absent in H1.
      rewrite H1 in Ht. injection Ht as <-. reflexivity.
    + intros H1. exact H1.
Qed.

(** C6 at the empty LemonSqueezy event: every field at its default. *)
Lemma C6_witness :
  exists o,
    lemon_extract Examples.node (VObj []) = Ok o
    /\ buyerEmail o = VNull
    /\ currency o = VStr (js "USD")
    /\ amount o = VNum zero
    /\ websiteType o = VStr (js "unknown").
Proof.
  destruct (C6_extraction_defaults Examples.node (VObj []))
    as (_ & Hex & Hdef & _).
  destruct (Hex I) as [o Ho]. exists o.
  destruct (Hdef o Ho) as (H1 & H2 & H3 & H4).
  split; [exact Ho|]. split; [exact (H1 eq_refl eq_refl)|].
  split; [exact (H2 eq_refl)|]. split; [exact (H3 eq_refl)|].
  exact (H4 eq_refl eq_refl).
Defined.

(** C7. The amount of a LemonSqueezy event is its
    [data.attributes.total] divided by 100 (2500 gives 25), and 0 when
    the total is absent; the amount of a NOWPayments event is its
    [price_amount], not scaled (25 gives 25). *)
Theorem C7_amount_normalization :
  forall (pf : platform) (evt : value),
    (forall x, lemon_total evt = VNum x ->
       exists o, lemon_extract pf evt = Ok o
                 /\ amount o = VNum (x / 100)%float)
    /\ (forall o, lemon_extract pf evt = Ok o ->
          nullish (lemon_total evt) = false ->
          js_div pf (lemon_total evt) (VNum 100) = Ok (amount o))
    /\ (absent (lemon_total evt) ->
          exists o, lemon_extract pf evt = Ok o /\ amount o = VNum 0)
    /\ (exists o, now_extract evt = Ok o
                  /\ amount o = optProp evt (js "price_amount"))
    /\ (exists o, lemon_extract pf Examples.total_2500_event = Ok o
                  /\ amount o = VNum 25)
    /\ (exists o, now_extract Examples.finished_event = Ok o
                  /\ amount o = VNum 25).
Proof.
  intros pf evt. split; [|split; [|split; [|split; [|split]]]].
  - intros x Hx. rewrite lemon_extract_eq, Hx. simpl. eauto.
  - intros o Ho Hn. rewrite lemon_extract_eq in Ho. unfold js_div.
    unfold coalesce in Ho. rewrite Hn in Ho.
    destruct (ToNumber pf (lemon_total evt)); [|discriminate].
    injection Ho as <-. reflexivity.
  - intros Ha. unfold absent in Ha. rewrite lemon_extract_eq, Ha. simpl.
    eauto.
  - destruct (now_extract_total evt) as (t & _ & H). rewrite H. eauto.
  - rewrite lemon_extract_eq. simpl. eauto.
  - destruct (now_extract_total Examples.finished_event) as (t & _ & H).
    rewrite H. eauto.
Qed.

(** C7 at a LemonSqueezy event with a total of 2500: amount 25. *)
Lemma C7_witness :
  lemon_total Examples.total_2500_event = VNum 2500
  /\ exists o, lemon_extract Examples.node Examples.total_2500_event = Ok o
               /\ amount o = VNum 25.
Proof.
  split; [reflexivity|].
  exact (proj1 (C7_amount_normalization Examples.node
                  Examples.total_2500_event) 2500%float eq_refl).
Defined.

(** C8. A LemonSqueezy event with neither
    [data.attributes.custom.websiteType] nor
    [meta.custom_data.websiteType] yields the website type "unknown". A
    NOWPayments [order_description] of "type=AI;email=x@y.com" yields
    "ai"; in general the website type is the lower-cased word of a
    [type=<word>] token of the description, matched in any case, and
    "unknown" when the description is absent, is no string, or holds
    no such token. *)
Theorem C8_website_type :
  forall (pf : platform) (evt : value),
    (forall o, lemon_extract pf evt = Ok o ->
       absent (optProp (optProp (lemon_attributes evt) (js "custom"))
                 (js "websiteType")) ->
       absent (optProp (optProp (optProp evt (js "meta")) (js "custom_data"))
                 (js "websiteType")) ->
       websiteType o = VStr (js "unknown"))
    /\ exists o,
         now_extract evt = Ok o
         /\ (optProp evt (js "order_description")
             = VStr (js "type=AI;email=x@y.com") ->
             websiteType o = VStr (js "ai"))
         /\ (is_string (optProp evt (js "order_description")) = false ->
             websiteType o = VStr (js "unknown"))
         /\ (forall d, optProp evt (js "order_description") = VStr d ->
               (no_type_token d -> websiteType o = VStr (js "unknown"))
               /\ (~ no_type_token d ->
                   exists pre ty w rest,
                     type_token d pre ty w rest
                     /\ websiteType o = VStr (Regex.toLowerCase w))).
Proof.
  intros pf evt. split.
  - intros o Ho H1 H2. exact (lemon_websiteType_default pf evt o Ho H1 H2).
  - destruct (now_extract_total evt) as (t & Ht & H).
    eexists. split; [exact H|]. cbn [websiteType].
    rewrite now_websiteType_eq in Ht. injection Ht as <-.
    split; [|split].
    + intros ->. reflexivity.
    + destruct (optProp evt (js "order_description")); try reflexivity.
      discriminate.
    + intros d ->. split.
      * intros Hno. rewrite (no_token_no_match d Hno). reflexivity.
      * intros Hyes. destruct (Regex.match_type d) as [w|] eqn:Hm.
        -- destruct (match_type_sound d w Hm) as (pre & ty & rest & Htok).
           exists pre, ty, w, rest. split; [exact Htok | reflexivity].
        -- destruct (Hyes (match_type_none d Hm)).
Qed.

(** C8 at the NOWPayments event of the specification: "ai". *)
Lemma C8_witness :
  optProp Examples.finished_event (js "order_description")
  = VStr (js "type=AI;email=x@y.com")
  /\ exists o, now_extract Examples.finished_event = Ok o
               /\ websiteType o = VStr (js "ai").
Proof.
  split; [reflexivity|].
  destruct (proj2 (C8_website_type Examples.node Examples.finished_event))
    as (o & Ho & Hai & _).
  exists o. split; [exact Ho | exact (Hai eq_refl)].
Defined.

(** ** End to end, as the specification lists them *)

(** The same order under a signature of the right length that is not
    the digest: 400, nothing notified. *)
Example invalid_signature_rejected :
  webhook LemonSqueezy Examples.node Examples.secrets
    (capture [(js "x-signature", repeat 48 64)]
       (Some (UTF8.encode Examples.order_body)))
  = (invalid_signature LemonSqueezy, []).
Proof. vm_compute. reflexivity. Qed.

(** A verified NOWPayments event that is still waiting: 200, nothing
    notified. *)
Example waiting_payment_accepted :
  webhook NOWPayments Examples.node Examples.secrets
    (Examples.signed NOWPayments (js "ipn-secret") Examples.waiting_body)
  = (ok_response, []).
Proof. vm_compute. reflexivity. Qed.

(** A signature of one provider does not pass on the route of the
    other. *)
Example cross_provider_rejected :
  fst (webhook NOWPayments Examples.node Examples.secrets
         (capture [(js "x-nowpayments-sig",
                    sign LemonSqueezy (js "ipn-secret") Examples.finished_body)]
            (Some (UTF8.encode Examples.finished_body))))
  = server_error.
Proof. vm_compute. reflexivity. Qed.

(* ================================================================== *)
(** * Further properties of the code                                  *)
(* ================================================================== *)

(** ** The verifiers, case by case *)

Lemma falsy_false s : falsy s = false -> exists c t, s = Some (c :: t).
Proof. destruct s as [[|c t]|]; try discriminate. eauto. Qed.

Lemma verifier_accepts :
  forall (r : route) (raw hd secret : option jsstring),
    verifier r raw hd secret = Ok true
    <-> exists raw' hd' secret',
          raw = Some raw' /\ hd = Some hd' /\ secret = Some secret'
          /\ raw' <> [] /\ secret' <> []
          /\ Buffer_from hd' = sign r secret' raw'.
Proof.
  intros r raw hd secret. split.
  - intros H. rewrite verifier_eq in H.
    destruct (falsy raw) eqn:Hr; [discriminate|].
    destruct (falsy hd) eqn:Hh; [discriminate|].
    destruct (falsy secret) eqn:Hs; [discriminate|].
    destruct (falsy_false _ Hr) as (c1 & t1 & ->).
    destruct (falsy_false _ Hh) as (c2 & t2 & ->).
    destruct (falsy_false _ Hs) as (c3 & t3 & ->).
    exists (c1 :: t1), (c2 :: t2), (c3 :: t3).
    repeat split; try discriminate.
    cbn [orb str] in H. unfold sign in *. rewrite digest_buffer in H.
    unfold timingSafeEqual in H.
    destruct (Nat.eqb _ _); [|discriminate].
    destruct (list_eqb _ _) eqn:Heq; [|discriminate].
    apply list_eqb_eq in Heq. exact Heq.
  - intros (raw' & hd' & secret' & -> & -> & -> & Hr & Hs & Heq).
    assert (Hh : hd' <> []).
    { intros ->. pose proof (digest_length (algorithm_of r) secret' raw') as Hl.
      unfold sign in Heq. rewrite <- Heq in Hl. destruct r; discriminate. }
    rewrite verifier_compare by assumption. rewrite Heq.
    apply timingSafeEqual_same.
Qed.

(** X1. A verifier accepts exactly when the raw body and the secret are
    present and not empty and the UTF-8 octets of the header are the
    hexadecimal keyed digest of that body under that secret. *)
Theorem X1_verifier_accepts_iff :
  forall (r : route) (raw hd secret : option jsstring),
    verifier r raw hd secret = Ok true
    <-> exists raw' hd' secret',
          raw = Some raw' /\ hd = Some hd' /\ secret = Some secret'
          /\ raw' <> [] /\ secret' <> []
          /\ Buffer_from hd' = sign r secret' raw'.
Proof. exact verifier_accepts. Qed.

(** X2. A verifier throws exactly when body, header and secret are all
    present and not empty and the header is not as long, in UTF-8
    octets, as the hexadecimal digest (64 for LemonSqueezy, 128 for
    NOWPayments); what it throws is the RangeError of
    [timingSafeEqual]. With an input missing it never throws. *)
Theorem X2_verifier_throws_iff :
  forall (r : route) (raw hd secret : option jsstring) (x : exn),
    verifier r raw hd secret = Throw x
    <-> x = RangeError
        /\ falsy raw = false /\ falsy hd = false /\ falsy secret = false
        /\ length (Buffer_from (str hd)) <> digest_size (algorithm_of r).
Proof.
  intros r raw hd secret x. rewrite verifier_eq. unfold sign.
  rewrite digest_buffer. unfold timingSafeEqual.
  rewrite digest_length.
  destruct (falsy raw), (falsy hd), (falsy secret); cbn [orb];
    try (split; [discriminate | intros (_ & ? & ? & ? & _); discriminate]).
  destruct (Nat.eqb_spec (length (Buffer_from (str hd)))
              (digest_size (algorithm_of r))) as [He|Hne].
  - split; [discriminate|]. intros (_ & _ & _ & _ & H). contradiction.
  - split.
    + intros H. injection H as <-. repeat split. exact Hne.
    + intros (-> & _). reflexivity.
Qed.

(** X3. A signature header one verifier accepts is never accepted by
    the other one, whatever the bodies and the secrets: the two digests
    differ in length. *)
Theorem X3_no_cross_provider_acceptance :
  forall (r r' : route) (raw raw' hd secret secret' : option jsstring),
    r <> r' ->
    verifier r raw hd secret = Ok true ->
    verifier r' raw' hd secret' <> Ok true.
Proof.
  intros r r' raw raw' hd secret secret' Hrr H H'.
  apply verifier_accepts in H as (a & h & s & _ & -> & _ & _ & _ & E).
  apply verifier_accepts in H' as (a' & h' & s' & _ & Hh & _ & _ & _ & E').
  injection Hh as <-.
  pose proof (digest_length (algorithm_of r) s a) as L.
  pose proof (digest_length (algorithm_of r') s' a') as L'.
  unfold sign in E, E'. rewrite <- E in L. rewrite <- E' in L'.
  rewrite L in L'. destruct r, r'; try discriminate; contradiction.
Qed.

(** X3 at the order of the specification: signed for LemonSqueezy, it
    does not pass the NOWPayments verifier under the same secret. *)
Lemma X3_witness :
  let hd := Some (sign LemonSqueezy (js "lemon-secret") Examples.order_body) in
  verifier LemonSqueezy (Some Examples.order_body) hd
    (Some (js "lemon-secret")) = Ok true
  /\ verifier NOWPayments (Some Examples.order_body) hd
       (Some (js "lemon-secret")) <> Ok true.
Proof.
  intros hd.
  assert (H : verifier LemonSqueezy (Some Examples.order_body) hd
                (Some (js "lemon-secret")) = Ok true)
    by (vm_compute; reflexivity).
  split; [exact H|].
  apply (X3_no_cross_provider_acceptance LemonSqueezy NOWPayments
           (Some Examples.order_body) (Some Examples.order_body) hd
           (Some (js "lemon-secret")) (Some (js "lemon-secret")));
    [discriminate | exact H].
Defined.

(** ** The answers of the handlers *)

Lemma responses_distinct r :
  invalid_signature r <> ok_response
  /\ invalid_signature r <> server_error
  /\ ok_response <> server_error.
Proof. destruct r; repeat split; discriminate. Qed.

Lemma webhook_outcome r pf e req : outcome r pf e req (webhook r pf e req).
Proof.
  destruct (verification r e req) as [[|]|x] eqn:Hv.
  - destruct (JSON_parse pf (str (rawBody req))) as [evt|] eqn:Hp.
    + destruct (success r evt) eqn:Hs.
      * destruct (extract r pf evt) as [o|x] eqn:Hx.
        -- rewrite (webhook_notifies r pf e req evt o Hv Hp Hs Hx).
           eapply out_notified; eassumption.
        -- rewrite (webhook_extract_throws r pf e req evt x Hv Hp Hs Hx).
           eapply out_extract_throws; eassumption.
      * rewrite (webhook_other_event r pf e req evt Hv Hp Hs).
        eapply out_other; eassumption.
    + rewrite (webhook_unparsable r pf e req Hv Hp).
      apply out_unparsable; assumption.
  - rewrite (webhook_rejected r pf e req Hv). apply out_rejected, Hv.
  - rewrite (webhook_verifier_throws r pf e req x Hv).
    eapply out_verifier_throws, Hv.
Qed.

(** X4. A handler answers with one of three responses (200 "ok", 400
    "Invalid ... signature", 500 "server error") and calls [notifyOrder]
    at most once per request. *)
Theorem X4_three_answers_one_attempt :
  forall (r : route) (pf : platform) (e : env) (req : request),
    (fst (webhook r pf e req) = ok_response
     \/ fst (webhook r pf e req) = invalid_signature r
     \/ fst (webhook r pf e req) = server_error)
    /\ (length (snd (webhook r pf e req)) <= 1)%nat.
Proof.
  intros r pf e req.
  destruct (webhook_outcome r pf e req); cbn [fst snd length];
    try (split; [tauto | lia]).
  destruct (notifyOrder pf o); split; (tauto || lia).
Qed.

(** X5. The answer is 400 exactly when the verifier returned [false];
    it is 200 exactly when the verifier returned [true], the body
    parsed, and either the event is no successful payment or its order
    was extracted and [notifyOrder] resolved. *)
Theorem X5_answers_characterised :
  forall (r : route) (pf : platform) (e : env) (req : request),
    (fst (webhook r pf e req) = invalid_signature r
     <-> verifier r (rawBody req) (header (sig_header r) (headers req))
           (secret_of r e) = Ok false)
    /\ (fst (webhook r pf e req) = ok_response
        <-> verifier r (rawBody req) (header (sig_header r) (headers req))
              (secret_of r e) = Ok true
            /\ exists evt,
                 JSON_parse pf (str (rawBody req)) = Some evt
                 /\ (success r evt = false
                     \/ exists o, extract r pf evt = Ok o
                                  /\ notifyOrder pf o = true)).
Proof.
  intros r pf e req. fold (verification r e req).
  destruct (responses_distinct r) as (D1 & D2 & D3).
  destruct (webhook_outcome r pf e req) as
    [Hv | x Hv | Hv Hp | evt Hv Hp Hs | evt x Hv Hp Hs Hx | evt o Hv Hp Hs Hx];
    cbn [fst]; rewrite Hv; split; split; intros H;
    try reflexivity; try discriminate; try congruence;
    try (destruct H as (H & _); discriminate).
  - destruct H as (_ & evt & Hp' & _). congruence.
  - split; [reflexivity|]. exists evt. auto.
  - destruct H as (_ & evt' & Hp' & [Hs'|(o & Hx' & _)]); congruence.
  - destruct (notifyOrder pf o); congruence.
  - destruct (notifyOrder pf o) eqn:Hn; [|congruence].
    split; [reflexivity|]. exists evt. split; [exact Hp|].
    right. exists o. auto.
  - destruct H as (_ & evt' & Hp' & [Hs'|(o' & Hx' & Hn)]); [congruence|].
    assert (o' = o) by congruence. subst o'. rewrite Hn. reflexivity.
Qed.

(** X6. A verified request whose body does not parse is answered with
    500 and nothing is notified. *)
Theorem X6_unparsable_body_answers_500 :
  forall (r : route) (pf : platform) (e : env) (req : request),
    verifier r (rawBody req) (header (sig_header r) (headers req))
      (secret_of r e) = Ok true ->
    JSON_parse pf (str (rawBody req)) = None ->
    webhook r pf e req = (server_error, []).
Proof. intros r pf e req Hv Hp. exact (webhook_unparsable r pf e req Hv Hp). Qed.

(** X6 at a signed body that is no JSON text. *)
Lemma X6_witness :
  webhook NOWPayments Examples.node Examples.secrets
    (Examples.signed NOWPayments (js "ipn-secret") (js "payment=finished"))
  = (server_error, []).
Proof.
  apply X6_unparsable_body_answers_500; vm_compute; reflexivity.
Defined.

(** ** What an extracted order looks like *)

Lemma or_truthy a b : truthy b = true -> truthy (or_ a b) = true.
Proof. unfold or_. destruct (truthy a) eqn:E; auto. Qed.

Lemma or_null a : or_ a VNull = VNull \/ truthy (or_ a VNull) = true.
Proof. unfold or_. destruct (truthy a) eqn:E; auto. Qed.

Lemma toLowerCase_word w :
  forallb Regex.word_char w = true ->
  forallb lower_word_char (Regex.toLowerCase w) = true.
Proof.
  induction w as [|c w IH]; [reflexivity|]. cbn [forallb Regex.toLowerCase map].
  rewrite !andb_true_iff. intros [Hc Hw]. split; [|exact (IH Hw)].
  unfold Regex.word_char in Hc. unfold lower_word_char, Regex.lower.
  rewrite !orb_true_iff in Hc. rewrite !orb_true_iff.
  destruct Hc as [[[Hc|Hc]|Hc]|Hc].
  - apply between_spec in Hc. rewrite (between_out 65 c 90) by lia.
    left. left. apply between_in. lia.
  - apply between_spec in Hc. rewrite (between_in 65 c 90) by lia.
    left. left. apply between_in. lia.
  - apply between_spec in Hc. rewrite (between_out 65 c 90) by lia.
    left. right. apply between_in. lia.
  - apply Z.eqb_eq in Hc. subst c. right. reflexivity.
Qed.

(** The website type of a NOWPayments event is a non-empty lower-case
    word. *)
Lemma now_websiteType_word evt :
  exists t,
    now_websiteType evt = Ok (VStr t)
    /\ t <> [] /\ forallb lower_word_char t = true.
Proof.
  rewrite now_websiteType_eq.
  assert (Hu : exists t, VStr (js "unknown") = VStr t /\ t <> []
                         /\ forallb lower_word_char t = true).
  { exists (js "unknown"). repeat split. discriminate. }
  destruct (optProp evt (js "order_description")) as [| | | |d| |];
    try (destruct Hu as (t & -> & Ht); exists t; split; [reflexivity|exact Ht]).
  destruct (Regex.match_type d) as [w|] eqn:Hm.
  - destruct (match_type_sound d w Hm) as (pre & ty & rest & _ & _ & Hw & Hall & _).
    exists (Regex.toLowerCase w). split; [reflexivity|]. split.
    + destruct w; [contradiction|discriminate].
    + apply toLowerCase_word, Hall.
  - destruct Hu as (t & -> & Ht); exists t; split; [reflexivity|exact Ht].
Qed.

(** X7. In every extracted order, of either provider, the website type
    and the currency are truthy, the buyer email is truthy or [null],
    and [raw] is the parsed event itself. *)
Theorem X7_extracted_order_invariant :
  forall (r : route) (pf : platform) (evt : value) (o : order),
    extract r pf evt = Ok o ->
    truthy (websiteType o) = true
    /\ truthy (currency o) = true
    /\ (buyerEmail o = VNull \/ truthy (buyerEmail o) = true)
    /\ raw o = evt.
Proof.
  intros [|] pf evt o H; cbn [extract] in H.
  - rewrite lemon_extract_eq in H.
    destruct (ToNumber pf _); [|discriminate]. injection H as <-.
    cbn [websiteType currency buyerEmail raw].
    repeat split; try (apply or_truthy; reflexivity). apply or_null.
  - destruct (now_extract_total evt) as (t & Ht & Hx).
    rewrite Hx in H. injection H as <-.
    cbn [websiteType currency buyerEmail raw].
    destruct (now_websiteType_word evt) as (w & Hw & Hne & _).
    rewrite Hw in Ht. injection Ht as <-.
    repeat split; try (apply or_truthy; reflexivity); [|apply or_null].
    destruct w; [contradiction|reflexivity].
Qed.

(** X7 at the NOWPayments event of the specification. *)
Lemma X7_witness :
  exists o,
    now_extract Examples.finished_event = Ok o
    /\ truthy (websiteType o) = true /\ raw o = Examples.finished_event.
Proof.
  eexists. split; [reflexivity|].
  destruct (X7_extracted_order_invariant NOWPayments Examples.node
              Examples.finished_event _ eq_refl) as (H1 & _ & _ & H4).
  split; [exact H1 | exact H4].
Defined.

(** X8. The website type of a NOWPayments order is always a non-empty
    string of lower-case letters, digits and underscores, whatever the
    event holds. *)
Theorem X8_now_website_type_is_lower_word :
  forall (evt : value),
    exists o t,
      now_extract evt = Ok o
      /\ websiteType o = VStr t
      /\ t <> []
      /\ forallb lower_word_char t = true.
Proof.
  intros evt. destruct (now_extract_total evt) as (v & Hv & Hx).
  destruct (now_websiteType_word evt) as (t & Ht & Hne & Hall).
  rewrite Ht in Hv. injection Hv as <-.
  eexists. exists t. split; [exact Hx|]. repeat split; assumption.
Qed.

(** X9. The name of a LemonSqueezy event is [meta.event_name] whenever
    that is truthy, and the legacy [event] field is then ignored; the
    [event] field decides only when [meta.event_name] is missing or
    falsy. *)
Theorem X9_event_name_precedence :
  forall (evt : value),
    let name := optProp (optProp evt (js "meta")) (js "event_name") in
    let legacy := optProp evt (js "event") in
    (truthy name = true ->
       (success LemonSqueezy evt = true
        <-> name = VStr (js "order_created")
            \/ name = VStr (js "subscription_payment_success")))
    /\ (truthy name = false ->
          (success LemonSqueezy evt = true
           <-> legacy = VStr (js "order_created")
               \/ legacy = VStr (js "subscription_payment_success"))).
Proof.
  intros evt name legacy. cbn [success]. unfold lemon_event_name.
  fold name legacy. unfold or_.
  split; intros H; rewrite H; apply lemon_success_spec.
Qed.

(** X9 at an event renamed by [meta.event_name]: the legacy field says
    "order_created", the event is no success. *)
Lemma X9_witness :
  let evt := Examples.obj
               [("meta"%string,
                 Examples.obj [("event_name"%string,
                                Examples.text "order_refunded")]);
                ("event"%string, Examples.text "order_created")] in
  success LemonSqueezy evt = false.
Proof.
  intros evt.
  destruct (X9_event_name_precedence evt) as (H & _).
  destruct (success LemonSqueezy evt) eqn:E; [|reflexivity].
  destruct (proj1 (H eq_refl) eq_refl) as [H1|H1]; discriminate.
Defined.

(** ** The first token wins *)

Lemma take_word_app w rest :
  forallb Regex.word_char w = true ->
  match rest with
  | c :: _ => Regex.word_char c = false
  | [] => True
  end ->
  Regex.take_word (w ++ rest) = w.
Proof.
  intros Hw Hr. induction w as [|c w IH].
  - destruct rest as [|c rest]; [reflexivity|]. cbn. rewrite Hr. reflexivity.
  - cbn [forallb] in Hw. apply andb_true_iff in Hw as [Hc Hw].
    cbn [app Regex.take_word]. rewrite Hc, (IH Hw). reflexivity.
Qed.

Lemma match_here_token ty w rest :
  type_token (ty ++ w ++ rest) [] ty w rest ->
  Regex.match_here (ty ++ w ++ rest) = Some w.
Proof.
  intros (_ & Hty & Hne & Hw & Hr). unfold Regex.match_here.
  rewrite (prefix_ci_complete (js "type=") ty (w ++ rest) Hty).
  rewrite (take_word_app w rest Hw Hr).
  destruct w; [contradiction|reflexivity].
Qed.

Lemma match_here_starts s w :
  Regex.match_here s = Some w -> starts_with_token s.
Proof.
  intros H. destruct (match_here_sound s w H) as (ty & rest & Hs & Hty & Hne & Hw & _).
  destruct w as [|c w]; [contradiction|].
  cbn [forallb] in Hw. apply andb_true_iff in Hw as [Hc _].
  exists ty, c, (w ++ rest). cbn [app] in Hs. auto.
Qed.

(** X10. Of several [type=<word>] tokens in an [order_description] the
    first one gives the website type: a token before which no other
    token begins is the one matched, and its whole word is taken. *)
Theorem X10_first_token_wins :
  forall (d pre ty w rest : jsstring),
    type_token d pre ty w rest ->
    (forall p1 p2, pre = p1 ++ p2 -> p2 <> [] ->
       ~ starts_with_token (p2 ++ ty ++ w ++ rest)) ->
    Regex.match_type d = Some w.
Proof.
  intros d pre ty w rest (Hd & Htok) Hfirst. subst d.
  induction pre as [|x pre IH].
  - rewrite match_type_eq. cbn [app].
    rewrite (match_here_token ty w rest); [reflexivity|].
    split; [reflexivity | exact Htok].
  - rewrite match_type_eq.
    destruct (Regex.match_here ((x :: pre) ++ ty ++ w ++ rest)) as [w'|] eqn:Hh.
    + exfalso. apply (Hfirst [] (x :: pre) eq_refl); [discriminate|].
      exact (match_here_starts _ _ Hh).
    + cbn [app]. apply IH. intros p1 p2 Hp Hne.
      apply (Hfirst (x :: p1) p2); [rewrite Hp; reflexivity | exact Hne].
Qed.

(** X10 at a description with two tokens: the first is taken. *)
Lemma X10_witness :
  Regex.match_type (js "plan;type=Shop;type=ai") = Some (js "Shop").
Proof.
  apply (X10_first_token_wins _ (js "plan;") (js "type=") (js "Shop")
           (js ";type=ai")).
  - repeat split. discriminate.
  - intros p1 p2 Hp Hne (ty & c & rest & Hs & Hty & Hc).
    assert (Hl : length ty = 5%nat).
    { apply (f_equal (@length Z)) in Hty. unfold Regex.toLowerCase in Hty.
      rewrite length_map in Hty. exact Hty. }
    destruct ty as [|t1 [|t2 [|t3 [|t4 [|t5 [|]]]]]]; try discriminate.
    cbn [app] in Hs.
    assert (Hlen : (length p1 + length p2 = 5)%nat).
    { apply (f_equal (@length Z)) in Hp. rewrite length_app in Hp.
      simpl in Hp. lia. }
    destruct p2 as [|a1 [|a2 [|a3 [|a4 [|a5 [|]]]]]];
      try contradiction; simpl in Hlen;
      destruct p1 as [|b1 [|b2 [|b3 [|b4 [|b5 [|]]]]]]; simpl in Hlen;
      try lia; injection Hp as <-; subst;
      injection Hs as <- <- <- <- <- _; discriminate.
Defined.

(** ** From a provider's text to [req.rawBody] *)

Ltac euclid := Z.to_euclidean_division_equations; lia.

Lemma decode_encode_cp cp rest :
  UTF8.scalar cp ->
  UTF8.decode UTF8.Lead (UTF8.encode_cp cp ++ rest)
  = cp :: UTF8.decode UTF8.Lead rest.
Proof.
  intros Hs. unfold UTF8.scalar in Hs. unfold UTF8.encode_cp.
  destruct (Z.ltb_spec cp 0x80) as [H1|H1].
  { cbn [app]. apply decode_one. lia. }
  destruct (Z.ltb_spec cp 0x800) as [H2|H2].
  { cbn [app]. rewrite decode_two by euclid. f_equal. euclid. }
  destruct (Z.ltb_spec cp 0x10000) as [H3|H3].
  { cbn [app]. rewrite decode_three.
    - f_equal. euclid.
    - euclid.
    - destruct (Z.eqb_spec (0xE0 + cp / 4096) 0xE0),
               (Z.eqb_spec (0xE0 + cp / 4096) 0xED); euclid.
    - euclid. }
  cbn [app]. rewrite decode_four.
  - f_equal. euclid.
  - euclid.
  - destruct (Z.eqb_spec (0xF0 + cp / 262144) 0xF0),
             (Z.eqb_spec (0xF0 + cp / 262144) 0xF4); euclid.
  - euclid.
  - euclid.
Qed.

(** Encoding a well-formed string and decoding the octets gives the
    string back. *)
Lemma encode_toString s :
  wellformed16 s -> UTF8.toString (UTF8.encode s) = s.
Proof.
  unfold UTF8.toString.
  induction 1 as [|u rest Hu _ IH|h l rest Hh Hl _ IH].
  - reflexivity.
  - cbn [UTF8.encode]. unfold UTF8.is_high, UTF8.is_low.
    rewrite !between_out by lia.
    rewrite decode_encode_cp by (unfold UTF8.scalar; lia).
    cbn [flat_map]. rewrite IH. unfold UTF8.units.
    rewrite (proj2 (Z.ltb_lt u 0x10000)) by lia. reflexivity.
  - cbn [UTF8.encode]. unfold UTF8.is_high, UTF8.is_low.
    rewrite !between_in by lia.
    rewrite decode_encode_cp by (unfold UTF8.scalar; lia).
    cbn [flat_map]. rewrite IH. unfold UTF8.units.
    rewrite (proj2 (Z.ltb_ge _ 0x10000)) by lia.
    cbn [app]. f_equal; [euclid|]. f_equal. euclid.
Qed.

Lemma encode_nonempty s : s <> [] -> wellformed16 s -> UTF8.encode s <> [].
Proof.
  intros Hne Hwf H. apply Hne.
  rewrite <- (encode_toString s Hwf), H. reflexivity.
Qed.

(** X11. When a request without [Content-Encoding] that the parser
    takes, within its limit, has as body the UTF-8 encoding of a
    non-empty well-formed string, it reaches the routes with
    [req.rawBody] that string, unit for unit: [JSON.parse] and the
    digest see the text the provider serialized. *)
Theorem X11_raw_body_is_the_text_sent :
  forall (bp : bodyparser) (hs : list (jsstring * jsstring)) (s : jsstring),
    plain hs = true ->
    takes bp hs (UTF8.encode s) = true ->
    within_limit bp (UTF8.encode s) = true ->
    wellformed16 s -> s <> [] ->
    exists req,
      receive bp hs (UTF8.encode s) = Some req
      /\ rawBody req = Some s
      /\ digest_input req = UTF8.encode s.
Proof.
  intros bp hs s Hp Ht Hl Hwf Hne.
  exists (capture hs (Some (UTF8.encode s))).
  assert (H : rawBody (capture hs (Some (UTF8.encode s))) = Some s).
  { unfold capture, rawBodySaver.
    destruct (UTF8.encode s) as [|b bs] eqn:He.
    - exfalso. exact (encode_nonempty s Hne Hwf He).
    - cbn [rawBody]. rewrite <- He, (encode_toString s Hwf). reflexivity. }
  split; [|split].
  - unfold receive. rewrite (read_plain _ _ _ Hp), Ht, Hl. reflexivity.
  - exact H.
  - unfold digest_input. rewrite H. reflexivity.
Qed.

(** X11 at a text with an accent, a euro sign and a surrogate pair. *)
Lemma X11_witness :
  let s := [0x7B; 0xE9; 0x20AC; 0xD83D; 0xDE00; 0x7D] in
  wellformed16 s /\ s <> []
  /\ exists req,
       receive BodyExamples.parser [] (UTF8.encode s) = Some req
       /\ rawBody req = Some s.
Proof.
  intros s.
  assert (Hwf : wellformed16 s).
  { unfold s. apply wf16_unit; [lia|]. apply wf16_unit; [lia|].
    apply wf16_unit; [lia|]. apply wf16_pair; [lia|lia|].
    apply wf16_unit; [lia|]. apply wf16_end. }
  assert (Hne : s <> []) by discriminate.
  split; [exact Hwf|]. split; [exact Hne|].
  destruct (X11_raw_body_is_the_text_sent BodyExamples.parser [] s
              eq_refl eq_refl eq_refl Hwf Hne) as (req & Hr & Hraw & _).
  exists req. split; [exact Hr | exact Hraw].
Defined.

(** ** The shape of an email *)

Lemma plus_then_spec (k : jsstring -> bool) (P : jsstring -> Prop) :
  (forall s, k s = true <-> P s) ->
  forall s,
    Notifier.plus_then k s = true
    <-> exists a rest,
          s = a ++ rest /\ a <> []
          /\ forallb Notifier.non_space a = true /\ P rest.
Proof.
  intros Hk. induction s as [|c s IH]; cbn [Notifier.plus_then].
  - split; [discriminate|]. intros (a & rest & H & Hne & _).
    destruct a; [contradiction|discriminate].
  - rewrite andb_true_iff, orb_true_iff, IH, Hk. split.
    + intros [Hc [(a & rest & -> & _ & Ha & HP)|HP]].
      * exists (c :: a), rest. repeat split; try discriminate; auto.
        cbn [forallb]. rewrite Hc, Ha. reflexivity.
      * exists [c], s. repeat split; try discriminate; auto.
        cbn [forallb]. rewrite Hc. reflexivity.
    + intros (a & rest & H & Hne & Ha & HP).
      destruct a as [|x a]; [contradiction|].
      cbn [app] in H. injection H as <- ->.
      cbn [forallb] in Ha. apply andb_true_iff in Ha as [Hx Ha].
      split; [exact Hx|]. destruct a as [|y a].
      * right. exact HP.
      * left. exists (y :: a), rest. repeat split; try discriminate; auto.
Qed.

Lemma char_then_spec c (k : jsstring -> bool) (P : jsstring -> Prop) :
  (forall s, k s = true <-> P s) ->
  forall s,
    Notifier.char_then c k s = true <-> exists rest, s = c :: rest /\ P rest.
Proof.
  intros Hk [|x s]; cbn [Notifier.char_then].
  - split; [discriminate|]. intros (rest & H & _). discriminate.
  - rewrite andb_true_iff, Z.eqb_eq, Hk. split.
    + intros [-> HP]. eauto.
    + intros (rest & H & HP). injection H as -> ->. auto.
Qed.

Lemma match_here_spec s :
  Notifier.match_here s = true
  <-> exists a b c post,
        s = a ++ 64 :: b ++ 46 :: c ++ post
        /\ a <> [] /\ b <> [] /\ c <> []
        /\ forallb Notifier.non_space (a ++ b ++ c) = true.
Proof.
  unfold Notifier.match_here.
  rewrite (plus_then_spec _ _
    (char_then_spec 64 _ _
      (plus_then_spec _ _
        (char_then_spec 46 _ _
          (plus_then_spec (fun _ => true) (fun _ => True)
             (fun _ => conj (fun _ => I) (fun _ => eq_refl))))))).
  split.
  - intros (a & r1 & -> & Ha & Fa & r2 & -> & b & r3 & -> & Hb & Fb
            & r4 & -> & c & post & -> & Hc & Fc & _).
    exists a, b, c, post. repeat split; auto.
    rewrite !forallb_app, Fa, Fb, Fc. reflexivity.
  - intros (a & b & c & post & -> & Ha & Hb & Hc & F).
    rewrite !forallb_app, !andb_true_iff in F. destruct F as (Fa & Fb & Fc).
    exists a, (64 :: b ++ 46 :: c ++ post). repeat split; auto.
    eexists. split; [reflexivity|].
    exists b, (46 :: c ++ post). repeat split; auto.
    eexists. split; [reflexivity|].
    exists c, post. repeat split; auto.
Qed.

Lemma test_eq s :
  Notifier.test s
  = Notifier.match_here s
    || match s with [] => false | _ :: s' => Notifier.test s' end.
Proof. destruct s; reflexivity. Qed.

Lemma test_email_shape :
  forall (s : jsstring), Notifier.test s = true <-> email_shape s.
Proof.
  unfold email_shape. induction s as [|x s IH]; rewrite test_eq.
  - rewrite orb_false_r, match_here_spec. split.
    + intros (a & b & c & post & H). exists [], a, b, c, post. exact H.
    + intros (pre & a & b & c & post & H & Ha & _).
      destruct pre; [|discriminate]. destruct a; [contradiction|discriminate].
  - rewrite orb_true_iff, match_here_spec, IH. split.
    + intros [(a & b & c & post & H)|(pre & a & b & c & post & -> & H)].
      * exists [], a, b, c, post. exact H.
      * exists (x :: pre), a, b, c, post. split; [reflexivity | exact H].
    + intros (pre & a & b & c & post & H & Hrest).
      destruct pre as [|y pre].
      * left. exists a, b, c, post. split; [exact H | exact Hrest].
      * right. cbn [app] in H. injection H as -> ->.
        exists pre, a, b, c, post. split; [reflexivity | exact Hrest].
Qed.

(** X12. The test of [notifyOrder] on a buyer email,
    [/\S+@\S+\.\S+/.test], holds exactly for the strings that hold,
    with no white space inside, something, an [@], something, a dot and
    something. *)
Theorem X12_email_test_is_email_shape :
  forall (s : jsstring), Notifier.test s = true <-> email_shape s.
Proof. exact test_email_shape. Qed.

(** ** The runs of [notifyOrder] *)

Lemma notifyOrder_delivery m ne o :
  delivery m ne o (Notifier.notifyOrder m ne o).
Proof.
  unfold Notifier.notifyOrder.
  destruct (falsy (OWNER_EMAIL ne)) eqn:Ho; [apply del_no_owner, Ho|].
  unfold Notifier.owner_subject, Notifier.owner_html, Notifier.buyer_wanted,
    Notifier.buyer_mail, Notifier.text, Notifier.nbind, Notifier.nlift,
    Notifier.nret, Notifier.await_sendMail.
  fold (buyer_flag ne).
  destruct (Notifier.ToString m (or_ (websiteType o) (VStr (js "website"))))
    as [t1|x] eqn:T1; [|apply del_no_text, Ho].
  unfold or_ at 2. 
  destruct (truthy (buyerEmail o)) eqn:Hb.
  - destruct (Notifier.ToString m (buyerEmail o)) as [t2|x] eqn:T2;
      [|apply del_no_text, Ho].
    destruct (Notifier.ToString m (or_ (websiteType o) (VStr (js "unknown"))))
      as [t3|x]; [|apply del_no_text, Ho].
    destruct (Notifier.ToString m (or_ (amount o) (VStr (js "?"))))
      as [t5|x]; [|apply del_no_text, Ho].
    destruct (Notifier.ToString m (or_ (currency o) (VStr [])))
      as [t6|x]; [|apply del_no_text, Ho].
    cbv beta iota. cbn [app].
    match goal with |- context [sendMail m ?om] =>
      destruct (sendMail m om) eqn:So;
      [|apply del_owner_rejected; [repeat split; assumption | exact So]]
    end.
    destruct (Notifier.test t2) eqn:Ht.
    + destruct (buyer_flag ne) eqn:Hf.
      * eapply del_both; try eassumption; try reflexivity.
        repeat split; assumption.
      * apply del_owner_only; [repeat split; assumption | exact So | auto].
    + apply del_owner_only; [repeat split; assumption | exact So |].
      right. left. eauto.
  - cbv beta iota.
    destruct (Notifier.ToString m (or_ (websiteType o) (VStr (js "unknown"))))
      as [t3|x]; [|apply del_no_text, Ho].
    destruct (Notifier.ToString m (VStr (js "unknown"))) as [t4|x];
      [|apply del_no_text, Ho].
    destruct (Notifier.ToString m (or_ (amount o) (VStr (js "?"))))
      as [t5|x]; [|apply del_no_text, Ho].
    destruct (Notifier.ToString m (or_ (currency o) (VStr [])))
      as [t6|x]; [|apply del_no_text, Ho].
    cbv beta iota. cbn [app].
    match goal with |- context [sendMail m ?om] =>
      destruct (sendMail m om) eqn:So;
      [|apply del_owner_rejected; [repeat split; assumption | exact So]]
    end.
    apply del_owner_only; [repeat split; assumption | exact So | auto].
Qed.

(** X13. Without an owner address ([OWNER_EMAIL] unset or empty)
    [notifyOrder] throws before anything else: no text is made and no
    mail is handed to the transport, whatever the order. *)
Theorem X13_no_owner_no_mail :
  forall (m : mailer) (ne : mail_env) (o : order),
    OWNER_EMAIL ne = None \/ OWNER_EMAIL ne = Some [] ->
    Notifier.notifyOrder m ne o = (Throw Error, []).
Proof.
  intros m ne o H. unfold Notifier.notifyOrder.
  destruct H as [-> | ->]; reflexivity.
Qed.

(** X14. [notifyOrder] hands at most two mails to the transport, and
    the first one always goes to [OWNER_EMAIL], from "Orders
    <SMTP_USER>". *)
Theorem X14_owner_mail_first :
  forall (m : mailer) (ne : mail_env) (o : order),
    (length (snd (Notifier.notifyOrder m ne o)) <= 2)%nat
    /\ forall a rest,
         snd (Notifier.notifyOrder m ne o) = a :: rest ->
         falsy (OWNER_EMAIL ne) = false
         /\ mail_to a = VStr (str (OWNER_EMAIL ne))
         /\ mail_from a
            = js "Orders <" ++ Notifier.env_text (SMTP_USER ne) ++ js ">".
Proof.
  intros m ne o.
  destruct (notifyOrder_delivery m ne o); cbn [snd length];
    (split; [lia|]); intros a rest E; try discriminate;
    injection E as <- _; assumption.
Qed.

(** X15. A second mail, the buyer confirmation, is handed over only
    when the transport accepted the owner mail, the buyer email is
    truthy, its text has the shape of an email, and
    [SEND_BUYER_CONFIRMATION] is exactly "true"; it is addressed to the
    buyer email. *)
Theorem X15_buyer_confirmation_conditions :
  forall (m : mailer) (ne : mail_env) (o : order) (a b : mail)
         (rest : list mail),
    snd (Notifier.notifyOrder m ne o) = a :: b :: rest ->
    rest = []
    /\ sendMail m a = true
    /\ mail_to b = buyerEmail o
    /\ truthy (buyerEmail o) = true
    /\ (exists t, Notifier.ToString m (buyerEmail o) = Ok t /\ email_shape t)
    /\ SEND_BUYER_CONFIRMATION ne = Some (js "true").
Proof.
  intros m ne o a b rest E.
  destruct (notifyOrder_delivery m ne o)
    as [ | | | | om bm t _ So Hb Ht Htest Hf Hto]; try discriminate.
  cbn [snd] in E. injection E as <- <- <-.
  repeat split; try assumption.
  - exists t. split; [exact Ht | apply test_email_shape, Htest].
  - unfold buyer_flag in Hf.
    destruct (SEND_BUYER_CONFIRMATION ne) as [f|]; [|discriminate].
    apply list_eqb_eq in Hf. rewrite Hf. reflexivity.
Qed.

(** X13 at an order with everything else in place. *)
Lemma X13_witness :
  Notifier.notifyOrder (MailExamples.post []) MailExamples.unowned
    MailExamples.an_order
  = (Throw Error, []).
Proof.
  apply X13_no_owner_no_mail. left. reflexivity.
Defined.

(** X14 and X15 at an order with a buyer, confirmations switched on. *)
Lemma X14_witness :
  exists a rest,
    snd (Notifier.notifyOrder (MailExamples.post []) MailExamples.confirming
           MailExamples.an_order) = a :: rest
    /\ mail_to a = VStr (js "owner@site.com").
Proof.
  eexists. eexists. split; [vm_compute; reflexivity|].
  exact (proj1 (proj2 (proj2 (X14_owner_mail_first (MailExamples.post [])
          MailExamples.confirming MailExamples.an_order) _ _ eq_refl))).
Defined.

Lemma X15_witness :
  exists a b,
    snd (Notifier.notifyOrder (MailExamples.post []) MailExamples.confirming
           MailExamples.an_order) = [a; b]
    /\ mail_to b = VStr (js "a@b.com").
Proof.
  eexists. eexists. split; [vm_compute; reflexivity|].
  exact (proj1 (proj2 (proj2 (X15_buyer_confirmation_conditions
          (MailExamples.post []) MailExamples.confirming
          MailExamples.an_order _ _ _ eq_refl)))).
Defined.

(** X16. [notifyOrder] resolves exactly when it handed at least one
    mail to the transport and the transport accepted every mail handed
    to it: once the owner mail is out, only the transport can make it
    fail. *)
Theorem X16_resolves_iff_all_accepted :
  forall (m : mailer) (ne : mail_env) (o : order),
    fst (Notifier.notifyOrder m ne o) = Ok tt
    <-> snd (Notifier.notifyOrder m ne o) <> []
        /\ forallb (sendMail m) (snd (Notifier.notifyOrder m ne o)) = true.
Proof.
  intros m ne o.
  destruct (notifyOrder_delivery m ne o)
    as [ | | om _ So | om _ So _ | om bm t _ So _ _ _ _ _];
    cbn [fst snd forallb].
  - split; [discriminate | intros [? _]; contradiction].
  - split; [discriminate | intros [? _]; contradiction].
  - rewrite So. split; [discriminate | intros [_ ?]; discriminate].
  - rewrite So. split; [split; [discriminate | reflexivity] | reflexivity].
  - rewrite So. destruct (sendMail m bm).
    + split; [split; [discriminate | reflexivity] | reflexivity].
    + split; [discriminate | intros [_ ?]; discriminate].
Qed.

(** ** Mails of a request *)

Lemma serve_eq r pf m ne e req :
  serve r pf m ne e req
  = (fst (webhook r (with_notifier pf m ne) e req),
     flat_map (fun o => snd (Notifier.notifyOrder m ne o))
       (snd (webhook r (with_notifier pf m ne) e req))).
Proof.
  unfold serve. destruct (webhook r (with_notifier pf m ne) e req).
  reflexivity.
Qed.

(** The mails of a request are those of at most one call of
    [notifyOrder], made after verification, and the answer is 200 only
    if that call resolved. *)
Lemma serve_calls r pf m ne e req :
  snd (serve r pf m ne e req) = []
  \/ exists evt o,
       verification r e req = Ok true
       /\ JSON_parse pf (str (rawBody req)) = Some evt
       /\ success r evt = true
       /\ snd (serve r pf m ne e req) = snd (Notifier.notifyOrder m ne o)
       /\ (fst (serve r pf m ne e req) = ok_response ->
           fst (Notifier.notifyOrder m ne o) = Ok tt).
Proof.
  rewrite serve_eq. cbn [fst snd].
  destruct (webhook_outcome r (with_notifier pf m ne) e req)
    as [ | | | | | evt o Hv Hp Hs Hx]; cbn [fst snd flat_map]; auto.
  right. exists evt, o. rewrite app_nil_r. repeat split; try assumption.
  cbn [notifyOrder with_notifier].
  destruct (fst (Notifier.notifyOrder m ne o)) as [[]|x];
    [reflexivity | intros H; discriminate].
Qed.

(** X17. A mail is handed to the transport only for a request that
    passed the verifier of its own route. *)
Theorem X17_mail_only_after_verification :
  forall (r : route) (pf : platform) (m : mailer) (ne : mail_env) (e : env)
         (req : request) (a : mail),
    In a (snd (serve r pf m ne e req)) ->
    verifier r (rawBody req) (header (sig_header r) (headers req))
      (secret_of r e) = Ok true.
Proof.
  intros r pf m ne e req a Hin.
  destruct (serve_calls r pf m ne e req) as [E | (evt & o & Hv & _)].
  - rewrite E in Hin. destruct Hin.
  - exact Hv.
Qed.

(** X18. Without an owner address no request leads to a mail, and only
    events that are no successful payment are answered with 200. *)
Theorem X18_no_owner_no_mail_no_200 :
  forall (r : route) (pf : platform) (m : mailer) (ne : mail_env) (e : env)
         (req : request),
    OWNER_EMAIL ne = None \/ OWNER_EMAIL ne = Some [] ->
    snd (serve r pf m ne e req) = []
    /\ (fst (serve r pf m ne e req) = ok_response ->
        exists evt, JSON_parse pf (str (rawBody req)) = Some evt
                    /\ success r evt = false).
Proof.
  intros r pf m ne e req Ho.
  assert (Hn : forall o, Notifier.notifyOrder m ne o = (Throw Error, [])).
  { intros o. unfold Notifier.notifyOrder.
    destruct Ho as [-> | ->]; reflexivity. }
  rewrite serve_eq. cbn [fst snd].
  destruct (webhook_outcome r (with_notifier pf m ne) e req)
    as [ | | | evt Hv Hp Hs | | evt o Hv Hp Hs Hx];
    cbn [fst snd flat_map]; (split; [try reflexivity|]);
    try (intros Hok; destruct r; discriminate).
  - intros _. exists evt. auto.
  - rewrite Hn. reflexivity.
  - cbn [notifyOrder with_notifier]. rewrite Hn. cbn [fst].
    intros Hok. discriminate.
Qed.

(** X19. One request leads to at most two mails, and the first of them
    goes to [OWNER_EMAIL]. *)
Theorem X19_request_mails :
  forall (r : route) (pf : platform) (m : mailer) (ne : mail_env) (e : env)
         (req : request),
    (length (snd (serve r pf m ne e req)) <= 2)%nat
    /\ forall a rest,
         snd (serve r pf m ne e req) = a :: rest ->
         mail_to a = VStr (str (OWNER_EMAIL ne)).
Proof.
  intros r pf m ne e req.
  destruct (serve_calls r pf m ne e req) as [E | (evt & o & _ & _ & _ & E & _)];
    rewrite E.
  - split; [simpl; lia | discriminate].
  - destruct (notifyOrder_delivery m ne o)
      as [ | | om (_ & Hto & _) | om (_ & Hto & _)
         | om bm t (_ & Hto & _)]; cbn [snd length];
      (split; [lia|]); intros a rest Ea; try discriminate;
      injection Ea as <- _; exact Hto.
Qed.

(** X20. An answer of 200 means the transport accepted every mail the
    request led to; a request after which the transport refused a mail
    is answered with 500, also when the owner mail went out before. *)
Theorem X20_ok_means_all_accepted :
  forall (r : route) (pf : platform) (m : mailer) (ne : mail_env) (e : env)
         (req : request),
    fst (serve r pf m ne e req) = ok_response ->
    forallb (sendMail m) (snd (serve r pf m ne e req)) = true.
Proof.
  intros r pf m ne e req H.
  destruct (serve_calls r pf m ne e req)
    as [E | (evt & o & _ & _ & _ & E & Hok)]; rewrite E; [reflexivity|].
  specialize (Hok H).
  destruct (notifyOrder_delivery m ne o)
    as [ | | om _ So | om _ So _ | om bm t _ So _ _ _ _ _];
    cbn [fst snd forallb] in *; try discriminate.
  - rewrite So. reflexivity.
  - rewrite So. destruct (sendMail m bm); [reflexivity | discriminate].
Qed.

(** X17 at the order of the specification: its owner mail. *)
Lemma X17_witness :
  let req := Examples.signed LemonSqueezy (js "lemon-secret")
               Examples.order_body in
  verifier LemonSqueezy (rawBody req)
    (header (sig_header LemonSqueezy) (headers req))
    (secret_of LemonSqueezy Examples.secrets) = Ok true.
Proof.
  intros req.
  eapply (X17_mail_only_after_verification LemonSqueezy Examples.node
            (MailExamples.post []) MailExamples.confirming Examples.secrets
            req).
  vm_compute. left. reflexivity.
Defined.

(** X18 at the order of the specification, no owner address set. *)
Lemma X18_witness :
  snd (serve LemonSqueezy Examples.node (MailExamples.post [])
         MailExamples.unowned Examples.secrets
         (Examples.signed LemonSqueezy (js "lemon-secret")
            Examples.order_body))
  = [].
Proof.
  exact (proj1 (X18_no_owner_no_mail_no_200 LemonSqueezy Examples.node
                  (MailExamples.post []) MailExamples.unowned
                  Examples.secrets
                  (Examples.signed LemonSqueezy (js "lemon-secret")
                     Examples.order_body)
                  (or_introl eq_refl))).
Defined.

(** X20 at the order of the specification, owner and buyer mailed. *)
Lemma X20_witness :
  let out := serve LemonSqueezy Examples.node (MailExamples.post [])
               MailExamples.confirming Examples.secrets
               (Examples.signed LemonSqueezy (js "lemon-secret")
                  Examples.order_body) in
  fst out = ok_response
  /\ forallb (sendMail (MailExamples.post [])) (snd out) = true.
Proof.
  intros out.
  assert (H : fst out = ok_response) by (vm_compute; reflexivity).
  split; [exact H|].
  exact (X20_ok_means_all_accepted LemonSqueezy Examples.node
           (MailExamples.post []) MailExamples.confirming Examples.secrets
           _ H).
Defined.

(** The same order when the transport refuses the buyer's address: the
    owner mail went out, the request is answered with 500. *)
Example owner_mailed_buyer_refused :
  let out := serve LemonSqueezy Examples.node
               (MailExamples.post (js "a@b.com"))
               MailExamples.confirming Examples.secrets
               (Examples.signed LemonSqueezy (js "lemon-secret")
                  Examples.order_body) in
  fst out = server_error
  /\ map mail_to (snd out)
     = [VStr (js "owner@site.com"); VStr (js "a@b.com")].
Proof. vm_compute. split; reflexivity. Qed.

(** The owner mail of the order of the specification. *)
Example owner_mail_of_the_order :
  map mail_subject
    (snd (serve LemonSqueezy Examples.node (MailExamples.post [])
            MailExamples.silent Examples.secrets
            (Examples.signed LemonSqueezy (js "lemon-secret")
               Examples.order_body)))
  = [js "New unknown order from a@b.com"].
Proof. vm_compute. reflexivity. Qed.

(** ** Configuration *)

Lemma env_or_nonempty v d : d <> [] -> Config.env_or v d <> [].
Proof.
  intros Hd. unfold Config.env_or.
  destruct v as [[|c s]|]; cbn [falsy str]; auto. discriminate.
Qed.

(** X21. [/config.json] never answers with an empty [site] or [env]: a
    variable that is unset or empty gives the default ("GoldenSpaceAI",
    "dev", and "" for [baseUrl]), and a variable that is set and not
    empty is passed on as it is. *)
Theorem X21_config_defaults :
  forall (se : Config.site_env),
    Config.site (Config.config_json se) <> []
    /\ Config.env_name (Config.config_json se) <> []
    /\ (forall v, v <> [] ->
          (Config.SITE_NAME se = Some v ->
           Config.site (Config.config_json se) = v)
          /\ (Config.APP_ENV se = Some v ->
              Config.env_name (Config.config_json se) = v)
          /\ (Config.PUBLIC_BASE_URL se = Some v ->
              Config.baseUrl (Config.config_json se) = v))
    /\ (forall v, v = None \/ v = Some [] ->
          (Config.SITE_NAME se = v ->
           Config.site (Config.config_json se) = js "GoldenSpaceAI")
          /\ (Config.APP_ENV se = v ->
              Config.env_name (Config.config_json se) = js "dev")
          /\ (Config.PUBLIC_BASE_URL se = v ->
              Config.baseUrl (Config.config_json se) = [])).
Proof.
  intros se. unfold Config.config_json. cbn [Config.site Config.env_name
    Config.baseUrl]. split; [|split; [|split]].
  - apply env_or_nonempty. discriminate.
  - apply env_or_nonempty. discriminate.
  - intros v Hv. unfold Config.env_or.
    repeat split; intros ->; rewrite (falsy_nonempty v Hv); reflexivity.
  - intros v Hv. unfold Config.env_or.
    repeat split; intros ->; destruct Hv as [-> | ->]; reflexivity.
Qed.

(** X22. The mail transport uses TLS exactly when [SMTP_SECURE] is
    unset, empty or exactly "true" (any other text, "TRUE" or "1"
    included, switches it off), and port 465 when [SMTP_PORT] is unset
    or empty. *)
Theorem X22_transport_defaults :
  forall (toNumber : jsstring -> float) (se : Config.smtp_env)
         (user : option jsstring),
    (Config.secure (Config.transporter toNumber se user) = true
     <-> Config.SMTP_SECURE se = None
         \/ Config.SMTP_SECURE se = Some []
         \/ Config.SMTP_SECURE se = Some (js "true"))
    /\ (falsy (Config.SMTP_PORT se) = true ->
        Config.port (Config.transporter toNumber se user) = 465%float)
    /\ Config.secure
         (Config.transporter toNumber
            {| Config.SMTP_HOST := Config.SMTP_HOST se;
               Config.SMTP_PORT := Config.SMTP_PORT se;
               Config.SMTP_SECURE := Some (js "TRUE");
               Config.SMTP_PASS := Config.SMTP_PASS se |} user) = false.
Proof.
  intros toNumber se user. cbn [Config.transporter Config.secure Config.port].
  split; [|split].
  - unfold Config.env_or.
    destruct (Config.SMTP_SECURE se) as [[|c s]|]; cbn [falsy str].
    + split; auto.
    + rewrite list_eqb_eq. split.
      * intros ->. auto.
      * intros [H|[H|H]]; try discriminate. congruence.
    + split; auto.
  - intros ->. reflexivity.
  - reflexivity.
Qed.

(** X22 at an environment without SMTP settings. *)
Lemma X22_witness :
  let se := {| Config.SMTP_HOST := None; Config.SMTP_PORT := None;
               Config.SMTP_SECURE := None; Config.SMTP_PASS := None |} in
  Config.port (Config.transporter (fun _ => nan) se None) = 465%float.
Proof.
  intros se.
  exact (proj1 (proj2 (X22_transport_defaults (fun _ => nan) se None))
           eq_refl).
Defined.

(** ** Odd totals and amounts *)

(** X23. When the total of a LemonSqueezy event is an object, the
    extraction throws a TypeError if the object has a property of its
    own named [toString], and otherwise returns an order whose amount
    is NaN, a falsy amount. *)
Theorem X23_object_total :
  forall (pf : platform) (evt : value) (props : list (jsstring * value)),
    lemon_total evt = VObj props ->
    (has_own (js "toString") props = true ->
     lemon_extract pf evt = Throw TypeError)
    /\ (has_own (js "toString") props = false ->
        exists o, lemon_extract pf evt = Ok o
                  /\ amount o = VNum nan
                  /\ truthy (amount o) = false).
Proof.
  intros pf evt props Ht. rewrite lemon_extract_eq, Ht.
  cbn [coalesce nullish ToNumber]. split; intros ->.
  - reflexivity.
  - eexists. split; [reflexivity|]. split; reflexivity.
Qed.

(** X23 at the odd order of the examples. *)
Lemma X23_witness :
  lemon_extract Examples.node Examples.odd_total_event = Throw TypeError.
Proof.
  exact (proj1 (X23_object_total Examples.node Examples.odd_total_event
                  _ eq_refl) eq_refl).
Defined.

(** X24. An order whose amount is falsy (0, as for a LemonSqueezy event
    without a total, or NaN, or missing) is shown with a question mark
    in the owner mail: its line reads "Total: ? ", then the currency. *)
Theorem X24_falsy_amount_shown_as_question_mark :
  forall (m : mailer) (o : order) (html : jsstring) (log : list mail),
    truthy (amount o) = false ->
    fst (Notifier.owner_html m o log) = Ok html ->
    exists before c after,
      Notifier.ToString m (or_ (currency o) (VStr [])) = Ok c
      /\ html = before ++ js "<p><b>Total:</b> ? " ++ c ++ js "</p>" ++ after.
Proof.
  intros m o html log Ha H.
  unfold Notifier.owner_html, Notifier.text, Notifier.nbind, Notifier.nlift,
    Notifier.nret in H.
  unfold or_ at 3 in H. rewrite Ha in H.
  destruct (Notifier.ToString m (or_ (websiteType o) (VStr (js "unknown"))))
    as [t|x]; [|discriminate].
  destruct (Notifier.ToString m (or_ (buyerEmail o) (VStr (js "unknown"))))
    as [b|x]; [|discriminate].
  cbn [Notifier.ToString] in H.
  destruct (Notifier.ToString m (or_ (currency o) (VStr [])))
    as [c|x]; [|discriminate].
  cbn [fst] in H. injection H as <-.
  exists (Notifier.nl ++ js "    <h2>New Website Order</h2>" ++ Notifier.nl
          ++ js "    <p><b>Type:</b> " ++ t ++ js "</p>" ++ Notifier.nl
          ++ js "    <p><b>Buyer:</b> " ++ b ++ js "</p>" ++ Notifier.nl
          ++ js "    "), c.
  eexists. split; [reflexivity|].
  repeat rewrite <- app_assoc. cbn. reflexivity.
Qed.

(** X24 at a LemonSqueezy order without a total. *)
Lemma X24_witness :
  let o := {| buyerEmail := VNull; websiteType := VStr (js "unknown");
              amount := VNum 0; currency := VStr (js "USD");
              raw := VObj [] |} in
  exists html before after,
    fst (Notifier.owner_html (MailExamples.post []) o []) = Ok html
    /\ html = before ++ js "<p><b>Total:</b> ? USD</p>" ++ after.
Proof.
  intros o.
  destruct (X24_falsy_amount_shown_as_question_mark (MailExamples.post []) o
              _ [] eq_refl eq_refl) as (before & c & after & Hc & Hh).
  injection Hc as <-.
  eexists. exists before, after. split; [reflexivity | exact Hh].
Defined.
